(** * KidEvent: event capacity, status derivation and registration workflow

    A shallow embedding of the server side of the repository:
    - [shared/schema.ts]: the tables and [calculateEventStatus];
    - [server/storage.ts]: the [DatabaseStorage] operations on events,
      supervisors, children, users and registrations;
    - [server/routes.ts]: the handlers of
      [POST /api/events/:eventId/register], [POST /api/admin/events],
      [PUT /api/admin/events/:id], [PUT /api/admin/events/:id/status],
      [DELETE /api/admin/events/:id], [PUT /api/admin/events/:id/restore],
      [PATCH /api/admin/users/:userId/role] and the child routes;
    - [server/auth.ts]: the session and the guards.

    Time is [Date.getTime()], milliseconds since the epoch, as [Z];
    local time, where the code uses it, is that of a time zone passed
    in.  [integer] columns are unbounded [Z], except where a JavaScript
    number is written to one; [varchar] columns are strings.
    Extra-service prices and the services cost are JavaScript numbers,
    modelled as IEEE 754 binary64 values with Rocq's [SpecFloat].

    A handler is a function from the store to the store and an answer:
    the request runs from its first storage call to its answer with no
    other request's storage call in between.  The registration handler
    is also given one [await] at a time, for requests that overlap. *)

From Stdlib Require Import ZArith Lia Bool.
From Stdlib Require Import Floats.SpecFloat.
From stdpp Require Import gmap strings list fin_maps sorting.

Local Open Scope Z_scope.

(** ** JavaScript numbers *)

Module JSNumber.

Definition number := spec_float.

Definition prec : Z := 53.
Definition emax : Z := 1024.

(** The number written by an integer literal. *)
Definition of_Z (z : Z) : number := binary_normalize prec emax z 0 false.

Definition zero : number := S754_zero false.

Definition add (x y : number) : number := SFadd prec emax x y.
Definition mul (x y : number) : number := SFmul prec emax x y.
Definition div (x y : number) : number := SFdiv prec emax x y.

(** [Math.round(x)]: the integral number closest to [x], ties towards
    +infinity; NaN, the infinities and both zeros are returned as they
    are; a negative [x >= -0.5] gives -0.  A finite [x = ±m·2^e] with
    [e >= 0] is integral already; otherwise [floor (x + 1/2)] is
    computed exactly and is below 2^53, hence representable. *)
Definition Math_round (x : number) : number :=
  match x with
  | S754_finite s m e =>
      if 0 <=? e then x
      else
        let d := 2 ^ (- e) in
        let n := (2 * cond_Zopp s (Zpos m) + d) / (2 * d) in
        binary_normalize prec emax n 0 s
  | _ => x
  end.

(** The integer a number denotes, when it is one. *)
Definition to_Z (x : number) : option Z :=
  match x with
  | S754_zero _ => Some 0
  | S754_finite s m e =>
      if 0 <=? e then Some (cond_Zopp s (Zpos m) * 2 ^ e)
      else if (Zpos m mod 2 ^ (- e) =? 0)
           then Some (cond_Zopp s (Zpos m / 2 ^ (- e)))
           else None
  | _ => None
  end.

(** The exponent of a finite number is not below the least exponent of
    the format. *)
Definition above_emin (x : number) : Prop :=
  match x with
  | S754_finite _ _ e => emin prec emax <= e
  | _ => True
  end.

End JSNumber.

(** ** JavaScript dates *)

Module JSDate.

Definition msPerHour : Z := 60 * 60 * 1000.
Definition msPerDay : Z := 24 * msPerHour.

(** The time zone of the server process, as ECMAScript's
    [LocalTZA(t, isUTC)]: the offset of local time from UTC
    (milliseconds) in effect at the UTC instant [t], and the offset
    taken for the local time value [t].  With daylight saving the two
    change over the year. *)
Record TimeZone := mkTimeZone {
  offset_at_utc : Z -> Z;
  offset_at_local : Z -> Z
}.

Definition LocalTime (tz : TimeZone) (t : Z) : Z := t + offset_at_utc tz t.

Definition UTC (tz : TimeZone) (t : Z) : Z := t - offset_at_local tz t.

(** [d.getHours()]: the hour field of the local time. *)
Definition getHours (tz : TimeZone) (t : Z) : Z :=
  (LocalTime tz t mod msPerDay) / msPerHour.

(** [d.setHours(h)]: replace the hour field of the local time, letting
    an hour outside 0..23 carry into the day, and convert back. *)
Definition setHours (tz : TimeZone) (t h : Z) : Z :=
  let local := LocalTime tz t in
  let day := local / msPerDay in
  let inHour := (local mod msPerDay) mod msPerHour in
  UTC tz (day * msPerDay + h * msPerHour + inHour).

(** A zone whose offset never changes, and UTC itself. *)
Definition fixed_zone (offset : Z) : TimeZone :=
  {| offset_at_utc := fun _ => offset; offset_at_local := fun _ => offset |}.

Definition utc_zone : TimeZone := fixed_zone 0.

Definition fixed_offset (tz : TimeZone) : Prop :=
  exists offset, forall t,
    offset_at_utc tz t = offset /\ offset_at_local tz t = offset.

End JSDate.

(** ** shared/schema.ts *)

Module Schema.

Import JSNumber.

(** [interface ExtraService]; [description] and [currency] play no
    part in any computation. *)
Record ExtraService := mkExtraService {
  price : number
}.

(** [type EventStatus]. *)
Inductive EventStatus :=
| open | registration_closed | full | past | editing.

Definition status_string (s : EventStatus) : string :=
  match s with
  | open => "open"
  | registration_closed => "registration_closed"
  | full => "full"
  | past => "past"
  | editing => "editing"
  end.

(** A row of [events], without its primary key (the key of the table's
    map).  The columns [name], [type], [location], [staffId],
    [duration], [description], [image], [servicesCurrency] and
    [createdAt] are carried along unchanged by every operation here and
    are left out.  So is [updatedAt], which every UPDATE of a row sets
    to the time of the write: a statement about a row is about its
    other columns. *)
Record Event := mkEvent {
  startTime : Z;
  maxSeats : Z;
  remainingSeats : Z;
  creditsRequired : Z;
  cutoffHours : Z;
  extraServices : list ExtraService;
  allowedRegistrants : string;
  status : string;
  deleted : bool
}.

(** A row of [attendee] (a child), without its primary key. *)
Record Child := mkChild {
  child_parentId : string
}.

(** A row of [users]. *)
Record User := mkUser {
  user_id : string;
  replitId : option string;
  role : string
}.

(** A row of [event_registrations]; the generated [id] and
    [registeredAt] are left out. *)
Record EventRegistration := mkEventRegistration {
  eventId : string;
  childId : option string;
  parentId : string;
  selectedServices : list Z;
  creditsCost : Z;
  servicesCost : number
}.

(** [calculateEventStatus(event)], with the clock read passed in. *)
Definition calculateEventStatus (now : Z) (event : Event) : EventStatus :=
  let eventDate := startTime event in
  let cutoffTime := eventDate - cutoffHours event * 60 * 60 * 1000 in
  if eventDate <? now then past
  else if remainingSeats event <=? 0 then full
  else if cutoffTime <? now then registration_closed
  else open.

End Schema.

(** ** server/storage.ts *)

Module Storage.

Import JSNumber Schema.

(** The database: [events] and [attendee] by primary key, [users] and
    [event_registrations] as their rows in insertion order.  The
    [event_supervisors] table is kept apart ([Events.Db]): no operation
    on the store reads it. *)
Record Store := mkStore {
  events : gmap string Event;
  attendee : gmap string Child;
  users : list User;
  eventRegistrations : list EventRegistration
}.

Definition with_events (st : Store) (evs : gmap string Event) : Store :=
  {| events := evs; attendee := attendee st; users := users st;
     eventRegistrations := eventRegistrations st |}.

Definition with_eventRegistrations (st : Store)
    (regs : list EventRegistration) : Store :=
  {| events := events st; attendee := attendee st; users := users st;
     eventRegistrations := regs |}.

(** The object handed to [updateEvent]: a field that is [undefined] is
    [None].  Its type is [Partial<InsertEvent>], which has no [id]; the
    object the route hands over is built from the request body and
    carries whatever the body does, an [id] among it. *)
Record EventPatch := mkEventPatch {
  p_id : option string;
  p_startTime : option Z;
  p_maxSeats : option Z;
  p_remainingSeats : option Z;
  p_creditsRequired : option Z;
  p_cutoffHours : option Z;
  p_extraServices : option (list ExtraService);
  p_allowedRegistrants : option string;
  p_status : option string;
  p_deleted : option bool
}.

(** [.set({ ...updateData })] on one row. *)
Definition set_fields (p : EventPatch) (e : Event) : Event :=
  {| startTime := default (startTime e) (p_startTime p);
     maxSeats := default (maxSeats e) (p_maxSeats p);
     remainingSeats := default (remainingSeats e) (p_remainingSeats p);
     creditsRequired := default (creditsRequired e) (p_creditsRequired p);
     cutoffHours := default (cutoffHours e) (p_cutoffHours p);
     extraServices := default (extraServices e) (p_extraServices p);
     allowedRegistrants :=
       default (allowedRegistrants e) (p_allowedRegistrants p);
     status := default (status e) (p_status p);
     deleted := default (deleted e) (p_deleted p) |}.

Definition set_status (s : string) (e : Event) : Event :=
  {| startTime := startTime e; maxSeats := maxSeats e;
     remainingSeats := remainingSeats e;
     creditsRequired := creditsRequired e; cutoffHours := cutoffHours e;
     extraServices := extraServices e;
     allowedRegistrants := allowedRegistrants e;
     status := s; deleted := deleted e |}.

Definition set_deleted (d : bool) (e : Event) : Event :=
  {| startTime := startTime e; maxSeats := maxSeats e;
     remainingSeats := remainingSeats e;
     creditsRequired := creditsRequired e; cutoffHours := cutoffHours e;
     extraServices := extraServices e;
     allowedRegistrants := allowedRegistrants e;
     status := status e; deleted := d |}.

(** [remainingSeats: sql`${events.remainingSeats} + ${seatsChange}`]. *)
Definition add_seats (seatsChange : Z) (e : Event) : Event :=
  {| startTime := startTime e; maxSeats := maxSeats e;
     remainingSeats := remainingSeats e + seatsChange;
     creditsRequired := creditsRequired e; cutoffHours := cutoffHours e;
     extraServices := extraServices e;
     allowedRegistrants := allowedRegistrants e;
     status := status e; deleted := deleted e |}.

(** [UPDATE events SET ... WHERE id = ... RETURNING *]: the new store
    and the updated row, if there is one. *)
Definition update_returning (f : Event -> Event) (id : string)
    (st : Store) : Store * option Event :=
  match events st !! id with
  | Some e => (with_events st (<[id := f e]> (events st)), Some (f e))
  | None => (st, None)
  end.

Definition getEvent (st : Store) (id : string) : option Event :=
  events st !! id.

(** Whether the database refuses to move the row of [id] to the key
    [newId]: the key is taken (primary key), or rows of
    [event_registrations] reference the old key (their foreign key has
    no [ON UPDATE] action). *)
Definition rekey_refused (st : Store) (id newId : string) : bool :=
  bool_decide (newId ≠ id)
  && (bool_decide (is_Some (events st !! newId))
      || existsb (fun r => bool_decide (eventId r = id))
           (eventRegistrations st)).

(** [updateEvent]: [UPDATE events SET ... WHERE id = ... RETURNING *].
    The primary key is among the columns written when the data carries
    an [id]: the row then moves to that key.  [None] stands for the
    exception of a refused statement. *)
Definition updateEvent (st : Store) (id : string) (eventData : EventPatch)
    : option (Store * option Event) :=
  match events st !! id with
  | None => Some (st, None)
  | Some e =>
      let newId := default id (p_id eventData) in
      if rekey_refused st id newId then None
      else
        Some (with_events st
                (<[newId := set_fields eventData e]> (delete id (events st))),
              Some (set_fields eventData e))
  end.

Definition updateEventStatus (st : Store) (id : string) (s : string)
    : Store * option Event :=
  update_returning (set_status s) id st.

(** [result.rowCount !== null && result.rowCount > 0]. *)
Definition softDeleteEvent (st : Store) (id : string) : Store * bool :=
  let '(st', updated) := update_returning (set_deleted true) id st in
  (st', bool_decide (is_Some updated)).

Definition restoreEvent (st : Store) (id : string) : Store * bool :=
  let '(st', updated) := update_returning (set_deleted false) id st in
  (st', bool_decide (is_Some updated)).

Definition updateEventSeats (st : Store) (eventId : string)
    (seatsChange : Z) : Store * option Event :=
  update_returning (add_seats seatsChange) eventId st.

Definition getChild (st : Store) (id : string) : option Child :=
  attendee st !! id.

(** [const [user] = await db.select()...]: the first matching row. *)
Definition getUserByReplitId (st : Store) (rid : string) : option User :=
  List.find (fun u => bool_decide (replitId u = Some rid)) (users st).

Definition getUser (st : Store) (id : string) : option User :=
  List.find (fun u => bool_decide (user_id u = id)) (users st).

(** The store with one more row of [event_registrations]. *)
Definition with_new_registration (st : Store)
    (registration : EventRegistration) : Store :=
  with_eventRegistrations st (eventRegistrations st ++ [registration]).

(** The value an [integer] column takes for a JavaScript number: the
    number has to be integral and within the range of [int4]. *)
Definition int4 (x : number) : option Z :=
  match to_Z x with
  | Some z =>
      if (-2147483648 <=? z) && (z <=? 2147483647) then Some z else None
  | None => None
  end.

(** [createEventRegistration]: the INSERT is refused, and the call
    throws, when [servicesCost] is no [int4] value; [None] stands for
    the exception.  ([creditsCost] is read off an [integer] column.)
    The foreign keys of the row are not checked here: a row whose
    parent or event does not exist is refused by the database, which a
    thrown call of the handler stands for. *)
Definition createEventRegistration (st : Store)
    (registration : EventRegistration) : option (Store * EventRegistration) :=
  match int4 (servicesCost registration) with
  | Some _ => Some (with_new_registration st registration, registration)
  | None => None
  end.

Definition getEventRegistrationsByParent (st : Store) (pid : string)
    : list EventRegistration :=
  filter (fun r => parentId r = pid) (eventRegistrations st).

Definition getEventRegistrationsByEvent (st : Store) (eid : string)
    : list EventRegistration :=
  filter (fun r => eventId r = eid) (eventRegistrations st).

Definition isChildRegisteredForEvent (st : Store) (cid eid : string)
    : bool :=
  existsb
    (fun r => bool_decide (childId r = Some cid)
              && bool_decide (eventId r = eid))
    (eventRegistrations st).

(** The row shape selected by
    [getEventRegistrationsWithDetailsForParent]: the registration's
    columns, [event.id] and [event.startTime], and [child.id] (the
    other selected columns of the joined rows are display texts). *)
Record RegistrationDetails := mkRegistrationDetails {
  d_registration : EventRegistration;
  d_event_id : string;
  d_event_startTime : Z;
  d_child_id : string
}.

(** One registration through the two inner joins:
    [eventRegistrations.eventId = events.id] and
    [eventRegistrations.childId = attendee.id].  A NULL [childId]
    equals no [attendee.id]. *)
Definition join_details (st : Store) (r : EventRegistration)
    : option RegistrationDetails :=
  e ← events st !! eventId r;
  c ← childId r;
  _ ← attendee st !! c;
  Some {| d_registration := r; d_event_id := eventId r;
          d_event_startTime := startTime e; d_child_id := c |}.

Definition by_startTime (a b : RegistrationDetails) : Prop :=
  d_event_startTime a <= d_event_startTime b.

#[global] Instance by_startTime_dec a b : Decision (by_startTime a b) :=
  Z_le_dec _ _.

Definition getEventRegistrationsWithDetailsForParent (st : Store)
    (pid : string) : list RegistrationDetails :=
  merge_sort by_startTime
    (omap (join_details st)
       (filter (fun r => parentId r = pid) (eventRegistrations st))).

(** [getAllEvents]: rows ordered by [startTime] descending, deleted
    rows dropped unless asked for, and [status] overridden by the
    calculated one.  The supervisor columns added to each row are not
    modelled. *)
Definition later_first (a b : string * Event) : Prop :=
  startTime b.2 <= startTime a.2.

#[global] Instance later_first_dec a b : Decision (later_first a b) :=
  Z_le_dec _ _.

Definition with_calculated_status (now : Z) (row : string * Event)
    : string * Event :=
  (row.1, set_status (status_string (calculateEventStatus now row.2)) row.2).

Definition getAllEvents (st : Store) (now : Z) (includeDeleted : bool)
    : list (string * Event) :=
  let eventsData := merge_sort later_first (map_to_list (events st)) in
  let filteredEvents :=
    if includeDeleted then eventsData
    else filter (fun row => deleted row.2 = false) eventsData in
  with_calculated_status now <$> filteredEvents.

Definition getAllEventsForAdmin (st : Store) (now : Z)
    : list (string * Event) :=
  getAllEvents st now true.

Definition getEventsForUser (st : Store) (now : Z)
    : list (string * Event) :=
  filter
    (fun row => status row.2 ≠ "past"%string
                /\ status row.2 ≠ "editing"%string)
    (getAllEvents st now false).

End Storage.


(** ** server/routes.ts *)

Module Routes.

Import JSNumber JSDate Schema Storage.

(** The awaited storage calls of the handlers.  Each of them may throw;
    a handler's [catch] then answers 500 and undoes nothing. *)
Inductive StorageCall :=
| CallGetEvent
| CallIsChildRegisteredForEvent
| CallGetChild
| CallGetEventRegistrationsByParent
| CallCreateEventRegistration
| CallGetUserByReplitId
| CallUpdateEventSeats
| CallUpdateEvent
| CallUpdateEventSupervisors
| CallUpdateEventStatus
| CallSoftDeleteEvent
| CallRestoreEvent.

(** Which storage calls throw during one request. *)
Definition Faults := StorageCall -> bool.

Definition no_faults : Faults := fun _ => false.

(** [req.user]: a Replit OAuth session carries [claims] (and the user
    row is looked up by [claims.sub]); an email/password session is the
    user row itself. *)
Inductive SessionUser :=
| ReplitSession (sub : string)
| LocalSession (u : User).

Definition session_userId (user : SessionUser) : string :=
  match user with
  | ReplitSession sub => sub
  | LocalSession u => user_id u
  end.

(** [req.body] of the registration request. *)
Record RegisterBody := mkRegisterBody {
  body_childId : option string;
  body_selectedServices : list Z
}.

(** [req.body.childId || null]: an empty string is falsy. *)
Definition childId_or_null (c : option string) : option string :=
  match c with
  | Some "" => None
  | _ => c
  end%string.

(** The answers of [POST /api/events/:eventId/register]. *)
Inductive RegisterResponse :=
| Created (registration : EventRegistration)
    (* 201, the inserted row *)
| EventNotFound            (* 404 "Event not found" *)
| NoSeatsAvailable         (* 400 "No seats available for this event" *)
| DeadlinePassed           (* 400 "Registration deadline has passed" *)
| OnlyOpenToChildren
    (* 400 "This event is only open to children (attendees)" *)
| OnlyOpenToParents
    (* 400 "This event is only open to parents (users)" *)
| ChildAlreadyRegistered
    (* 400 "Child is already registered for this event" *)
| ChildNotFound            (* 404 "Child not found" *)
| ParentAlreadyRegistered
    (* 400 "You are already registered for this event" *)
| FailedToRegister         (* 500 "Failed to register for event" *).

Definition http_status (r : RegisterResponse) : Z :=
  match r with
  | Created _ => 201
  | EventNotFound | ChildNotFound => 404
  | FailedToRegister => 500
  | _ => 400
  end.

(** [event.extraServices?.[serviceIndex]]. *)
Definition service_at (l : list ExtraService) (serviceIndex : Z)
    : option ExtraService :=
  if 0 <=? serviceIndex then l !! Z.to_nat serviceIndex else None.

(** [service ? Math.round(service.price * 100) : 0]. *)
Definition service_cents (service : option ExtraService) : number :=
  match service with
  | Some s => Math_round (mul (price s) (of_Z 100))
  | None => zero
  end.

(** [(req.body.selectedServices || []).reduce(..., 0)]. *)
Definition servicesCost_of (event : Event) (selected : list Z) : number :=
  fold_left
    (fun total serviceIndex =>
       add total (service_cents (service_at (extraServices event) serviceIndex)))
    selected zero.

(** [event.allowedRegistrants || "attendee"]. *)
Definition allowedRegistrants_or_default (event : Event) : string :=
  match allowedRegistrants event with
  | "" => "attendee"
  | s => s
  end%string.

(** The cutoff instant: [new Date(event.startTime)] moved back by
    [setHours(getHours() - event.cutoffHours)], in the time zone [tz] of
    the server. *)
Definition register_cutoffTime (tz : TimeZone) (event : Event) : Z :=
  setHours tz (startTime event)
    (getHours tz (startTime event) - cutoffHours event).

(** The checks on the event row, up to the registrant-type check; the
    answer of the first one that fails. *)
Definition check_event (tz : TimeZone) (now : Z) (event : Event)
    (isChildRegistration : bool) : option RegisterResponse :=
  if remainingSeats event <=? 0 then Some NoSeatsAvailable
  else if register_cutoffTime tz event <? now then Some DeadlinePassed
  else
    let allowed := allowedRegistrants_or_default event in
    let isParentRegistration := negb isChildRegistration in
    if String.eqb allowed "attendee" && isParentRegistration
    then Some OnlyOpenToChildren
    else if String.eqb allowed "user" && isChildRegistration
    then Some OnlyOpenToParents
    else None.

(** The [if (isChildRegistration) { ... } else { ... }] block: the
    duplicate check, and for a child the ownership check. *)
Definition check_registrant (flt : Faults) (st : Store) (userId : string)
    (evId : string) (child : option string) : option RegisterResponse :=
  match child with
  | Some c =>
      if flt CallIsChildRegisteredForEvent then Some FailedToRegister
      else if isChildRegisteredForEvent st c evId
      then Some ChildAlreadyRegistered
      else if flt CallGetChild then Some FailedToRegister
      else
        match getChild st c with
        | None => Some ChildNotFound
        | Some ch =>
            if bool_decide (child_parentId ch = userId) then None
            else Some ChildNotFound
        end
  | None =>
      if flt CallGetEventRegistrationsByParent then Some FailedToRegister
      else
        let existingRegistrations := getEventRegistrationsByParent st userId in
        let isParentAlreadyRegistered :=
          existsb
            (fun reg => bool_decide (eventId reg = evId)
                        && bool_decide (childId reg = None))
            existingRegistrations in
        if isParentAlreadyRegistered then Some ParentAlreadyRegistered
        else None
  end.

(** [userRole] of a parent registration: looked up in the store for a
    Replit session ([user?.role]), read off the session otherwise.
    [None] stands for a failed lookup call. *)
Definition userRole_of (flt : Faults) (st : Store) (user : SessionUser)
    : option (option string) :=
  match user with
  | ReplitSession sub =>
      if flt CallGetUserByReplitId then None
      else Some (role <$> getUserByReplitId st sub)
  | LocalSession u => Some (Some (role u))
  end.

(** [userRole !== 'admin' && userRole !== 'staff']. *)
Definition counts_toward_seats (userRole : option string) : bool :=
  match userRole with
  | Some r => negb (String.eqb r "admin") && negb (String.eqb r "staff")
  | None => true
  end.

(** The seat update after the insert. *)
Definition update_seats_after_insert (flt : Faults) (st : Store)
    (user : SessionUser) (evId : string) (isChildRegistration : bool)
    : option Store :=
  if isChildRegistration then
    if flt CallUpdateEventSeats then None
    else Some (updateEventSeats st evId (-1)).1
  else
    match userRole_of flt st user with
    | None => None
    | Some userRole =>
        if counts_toward_seats userRole then
          if flt CallUpdateEventSeats then None
          else Some (updateEventSeats st evId (-1)).1
        else Some st
    end.

(** [registrationWithCosts], the row handed to
    [createEventRegistration]. *)
Definition registrationWithCosts (user : SessionUser) (evId : string)
    (body : RegisterBody) (event : Event) : EventRegistration :=
  {| eventId := evId;
     childId := childId_or_null (body_childId body);
     parentId := session_userId user;
     selectedServices := body_selectedServices body;
     creditsCost := creditsRequired event;
     servicesCost := servicesCost_of event (body_selectedServices body) |}.

(** [POST /api/events/:eventId/register], for an authenticated session
    and a body that [registrationSchema.parse] accepts, on a server in
    time zone [tz]; [now] is the clock read of the cutoff check.  The
    handler runs here from its first storage call to its answer with no
    other request's storage call in between; [Interleaving] below takes
    it apart at its [await]s. *)
Definition post_register (tz : TimeZone) (flt : Faults) (now : Z)
    (user : SessionUser) (evId : string) (body : RegisterBody) (st : Store)
    : Store * RegisterResponse :=
  let userId := session_userId user in
  let child := childId_or_null (body_childId body) in
  let isChildRegistration := bool_decide (is_Some child) in
  if flt CallGetEvent then (st, FailedToRegister)
  else
    match getEvent st evId with
    | None => (st, EventNotFound)
    | Some event =>
        match check_event tz now event isChildRegistration with
        | Some answer => (st, answer)
        | None =>
            match check_registrant flt st userId evId child with
            | Some answer => (st, answer)
            | None =>
                if flt CallCreateEventRegistration
                then (st, FailedToRegister)
                else
                  match createEventRegistration st
                          (registrationWithCosts user evId body event) with
                  | None => (st, FailedToRegister)
                  | Some (st1, registration) =>
                      match update_seats_after_insert flt st1 user evId
                              isChildRegistration with
                      | None => (st1, FailedToRegister)
                      | Some st2 => (st2, Created registration)
                      end
                  end
            end
        end
    end.

(** The answers of the administrative event routes. *)
Inductive AdminResponse :=
| Ok (event : Event)       (* 200, the updated row *)
| OkMessage                (* 200, a confirmation message *)
| AdminEventNotFound       (* 404 "Event not found" *)
| AdminFailed              (* 500 *).

(** [PUT /api/admin/events/:id/status] with [req.body.status]. *)
Definition put_event_status (flt : Faults) (evId : string) (s : string)
    (st : Store) : Store * AdminResponse :=
  if flt CallUpdateEventStatus then (st, AdminFailed)
  else
    match updateEventStatus st evId s with
    | (st', Some updatedEvent) => (st', Ok updatedEvent)
    | (st', None) => (st', AdminEventNotFound)
    end.

(** [DELETE /api/admin/events/:id]. *)
Definition delete_event (flt : Faults) (evId : string) (st : Store)
    : Store * AdminResponse :=
  if flt CallSoftDeleteEvent then (st, AdminFailed)
  else
    match softDeleteEvent st evId with
    | (st', true) => (st', OkMessage)
    | (st', false) => (st', AdminEventNotFound)
    end.

(** [PUT /api/admin/events/:id/restore]. *)
Definition restore_event (flt : Faults) (evId : string) (st : Store)
    : Store * AdminResponse :=
  if flt CallRestoreEvent then (st, AdminFailed)
  else
    match restoreEvent st evId with
    | (st', true) => (st', OkMessage)
    | (st', false) => (st', AdminEventNotFound)
    end.

(** [eventData]: [req.body] of [PUT /api/admin/events/:id] and of
    [POST /api/admin/events] without its [staffIds], numeric fields
    already numbers.  The handler of the PUT validates nothing: what
    else the body carries of the row's columns ([id],
    [allowedRegistrants], [status], [deleted]) is passed on. *)
Record EventBody := mkEventBody {
  b_id : option string;
  b_startTime : Z;
  b_maxSeats : Z;
  b_remainingSeats : Z;
  b_creditsRequired : Z;
  b_cutoffHours : Z;
  b_extraServices : option (list ExtraService);
  b_allowedRegistrants : option string;
  b_status : option string;
  b_deleted : option bool
}.

Definition processedEventData (b : EventBody) : EventPatch :=
  {| p_id := b_id b;
     p_startTime := Some (b_startTime b);
     p_maxSeats := Some (b_maxSeats b);
     p_remainingSeats := Some (b_remainingSeats b);
     p_creditsRequired := Some (b_creditsRequired b);
     p_cutoffHours := Some (b_cutoffHours b);
     p_extraServices := Some (default [] (b_extraServices b));
     p_allowedRegistrants := b_allowedRegistrants b;
     p_status := b_status b;
     p_deleted := b_deleted b |}.

(** Whether [storage.updateEventSupervisors(eventId, staffIds)] at the
    end of the PUT throws.  It is called when [staffIds] is an array,
    with the id of the request path: after the row has moved to another
    key, the rows it inserts reference no event and are refused. *)
Definition supervisors_update_throws (flt : Faults) (evId : string)
    (b : EventBody) (staffIds : option (list string)) : bool :=
  match staffIds with
  | None => false
  | Some l =>
      flt CallUpdateEventSupervisors
      || (bool_decide (default evId (b_id b) ≠ evId)
          && negb (bool_decide (l = [])))
  end.

(** [PUT /api/admin/events/:id].  The supervisor update that follows a
    successful event update writes to [event_supervisors] only; when it
    throws, the answer is 500 and the event stays updated.  Rows of
    [event_supervisors] that reference the event make the database
    refuse a change of its key as rows of [event_registrations] do; the
    table being outside the store, that refusal is a thrown
    [updateEvent] call. *)
Definition put_event (flt : Faults) (evId : string) (b : EventBody)
    (staffIds : option (list string)) (st : Store) : Store * AdminResponse :=
  if flt CallUpdateEvent then (st, AdminFailed)
  else
    match updateEvent st evId (processedEventData b) with
    | None => (st, AdminFailed)
    | Some (st', None) => (st', AdminEventNotFound)
    | Some (st', Some updatedEvent) =>
        if supervisors_update_throws flt evId b staffIds
        then (st', AdminFailed)
        else (st', Ok updatedEvent)
    end.

End Routes.

(** ** The registration handler, one [await] at a time

    The server runs a handler up to its next [await] and may run the
    handlers of other requests before the awaited storage call returns
    and the handler resumes.  No transaction spans the storage calls of
    a request. *)

Module Interleaving.

Import JSNumber JSDate Schema Storage Routes.

(** A registration request. *)
Record Request := mkRequest {
  req_flt : Faults;
  req_now : Z;
  req_user : SessionUser;
  req_evId : string;
  req_body : RegisterBody
}.

(** Where a request in flight is suspended: the storage call it awaits,
    with the local variables [event] and [registration] it holds by
    then; or the answer it has given. *)
Inductive Pending :=
| AwaitGetEvent
| AwaitIsChildRegisteredForEvent (event : Event) (c : string)
| AwaitGetChild (event : Event) (c : string)
| AwaitGetEventRegistrationsByParent (event : Event)
| AwaitCreateEventRegistration (event : Event)
| AwaitGetUserByReplitId (registration : EventRegistration) (sub : string)
| AwaitUpdateEventSeats (registration : EventRegistration)
| Answered (answer : RegisterResponse).

(** From the returned insertion to the next [await] or the answer. *)
Definition after_insert (rq : Request) (registration : EventRegistration)
    : Pending :=
  let child := childId_or_null (body_childId (req_body rq)) in
  if bool_decide (is_Some child) then AwaitUpdateEventSeats registration
  else
    match req_user rq with
    | ReplitSession sub => AwaitGetUserByReplitId registration sub
    | LocalSession u =>
        if counts_toward_seats (Some (role u))
        then AwaitUpdateEventSeats registration
        else Answered (Created registration)
    end.

(** The awaited storage call runs on the store as it is now, and the
    handler goes on to its next [await] or to its answer. *)
Definition resume (tz : TimeZone) (rq : Request) (p : Pending) (st : Store)
    : Store * Pending :=
  let flt := req_flt rq in
  let evId := req_evId rq in
  let userId := session_userId (req_user rq) in
  let child := childId_or_null (body_childId (req_body rq)) in
  match p with
  | AwaitGetEvent =>
      if flt CallGetEvent then (st, Answered FailedToRegister)
      else
        match getEvent st evId with
        | None => (st, Answered EventNotFound)
        | Some event =>
            match check_event tz (req_now rq) event
                    (bool_decide (is_Some child)) with
            | Some answer => (st, Answered answer)
            | None =>
                match child with
                | Some c => (st, AwaitIsChildRegisteredForEvent event c)
                | None => (st, AwaitGetEventRegistrationsByParent event)
                end
            end
        end
  | AwaitIsChildRegisteredForEvent event c =>
      if flt CallIsChildRegisteredForEvent then (st, Answered FailedToRegister)
      else if isChildRegisteredForEvent st c evId
      then (st, Answered ChildAlreadyRegistered)
      else (st, AwaitGetChild event c)
  | AwaitGetChild event c =>
      if flt CallGetChild then (st, Answered FailedToRegister)
      else
        match getChild st c with
        | None => (st, Answered ChildNotFound)
        | Some ch =>
            if bool_decide (child_parentId ch = userId)
            then (st, AwaitCreateEventRegistration event)
            else (st, Answered ChildNotFound)
        end
  | AwaitGetEventRegistrationsByParent event =>
      if flt CallGetEventRegistrationsByParent
      then (st, Answered FailedToRegister)
      else
        let existingRegistrations := getEventRegistrationsByParent st userId in
        if existsb
             (fun reg => bool_decide (eventId reg = evId)
                         && bool_decide (childId reg = None))
             existingRegistrations
        then (st, Answered ParentAlreadyRegistered)
        else (st, AwaitCreateEventRegistration event)
  | AwaitCreateEventRegistration event =>
      if flt CallCreateEventRegistration then (st, Answered FailedToRegister)
      else
        match createEventRegistration st
                (registrationWithCosts (req_user rq) evId (req_body rq) event)
        with
        | None => (st, Answered FailedToRegister)
        | Some (st1, registration) => (st1, after_insert rq registration)
        end
  | AwaitGetUserByReplitId registration sub =>
      if flt CallGetUserByReplitId then (st, Answered FailedToRegister)
      else if counts_toward_seats (role <$> getUserByReplitId st sub)
      then (st, AwaitUpdateEventSeats registration)
      else (st, Answered (Created registration))
  | AwaitUpdateEventSeats registration =>
      if flt CallUpdateEventSeats then (st, Answered FailedToRegister)
      else ((updateEventSeats st evId (-1)).1, Answered (Created registration))
  | Answered answer => (st, Answered answer)
  end.

(** A request resumed [fuel] times in a row. *)
Fixpoint resume_repeatedly (fuel : nat) (tz : TimeZone) (rq : Request)
    (p : Pending) (st : Store) : Store * Pending :=
  match fuel with
  | O => (st, p)
  | S fuel' =>
      let '(st', p') := resume tz rq p st in
      resume_repeatedly fuel' tz rq p' st'
  end.

(** A request that runs from its first storage call to its answer with
    no other request in between: a handler awaits five calls at most. *)
Definition run_alone (tz : TimeZone) (rq : Request) (st : Store)
    : Store * Pending :=
  resume_repeatedly 5 tz rq AwaitGetEvent st.

(** Several requests in flight; the schedule names, step by step, the
    request whose awaited call returns next. *)
Definition resume_nth (tz : TimeZone) (reqs : list Request)
    (s : Store * list Pending) (i : nat) : Store * list Pending :=
  match reqs !! i, s.2 !! i with
  | Some rq, Some p =>
      let '(st', p') := resume tz rq p s.1 in (st', <[i := p']> s.2)
  | _, _ => s
  end.

Definition interleave (tz : TimeZone) (reqs : list Request)
    (schedule : list nat) (st : Store) : Store * list Pending :=
  fold_left (resume_nth tz reqs) schedule
    (st, (fun _ => AwaitGetEvent) <$> reqs).

End Interleaving.


(** ** server/storage.ts: event supervisors *)

Module Supervisors.

(** A row of [event_supervisors]; the generated [id] and [createdAt]
    are left out. *)
Record EventSupervisor := mkEventSupervisor {
  sup_eventId : string;
  sup_supervisorId : string
}.

Definition supervisorData (evId : string) (staffIds : list string)
    : list EventSupervisor :=
  mkEventSupervisor evId <$> staffIds.

(** [updateEventSupervisors]: delete the rows of the event, then insert
    one row per staff id when there is one.  Either statement may throw
    ([delete_throws], [insert_throws]); a deletion that was made is not
    undone.  The boolean tells whether the call returned. *)
Definition updateEventSupervisors (delete_throws insert_throws : bool)
    (rows : list EventSupervisor) (evId : string) (staffIds : list string)
    : list EventSupervisor * bool :=
  if delete_throws then (rows, false)
  else
    let remaining := filter (fun s => sup_eventId s ≠ evId) rows in
    match staffIds with
    | [] => (remaining, true)
    | _ =>
        if insert_throws then (remaining, false)
        else (remaining ++ supervisorData evId staffIds, true)
    end.

(** The supervisors of an event, in table order. *)
Definition supervisors_of (rows : list EventSupervisor) (evId : string)
    : list string :=
  sup_supervisorId <$> filter (fun s => sup_eventId s = evId) rows.

End Supervisors.

(** ** server/storage.ts and server/routes.ts: creating events *)

Module Events.

Import JSNumber JSDate Schema Storage Routes Supervisors.

(** The store together with the [event_supervisors] table. *)
Record Db := mkDb {
  store : Store;
  eventSupervisors : list EventSupervisor
}.

(** [InsertEvent]: the columns with a default may be left out. *)
Record InsertEvent := mkInsertEvent {
  i_startTime : Z;
  i_maxSeats : option Z;
  i_remainingSeats : option Z;
  i_creditsRequired : Z;
  i_cutoffHours : option Z;
  i_extraServices : option (list ExtraService);
  i_allowedRegistrants : option string;
  i_status : option string;
  i_deleted : option bool
}.

(** The row that [createEvent] inserts: the column defaults of the
    table for what is left out, and [status: "open"] over whatever the
    data says. *)
Definition inserted_event (ev : InsertEvent) : Event :=
  {| startTime := i_startTime ev;
     maxSeats := default 3 (i_maxSeats ev);
     remainingSeats := default 3 (i_remainingSeats ev);
     creditsRequired := i_creditsRequired ev;
     cutoffHours := default 12 (i_cutoffHours ev);
     extraServices := default [] (i_extraServices ev);
     allowedRegistrants := default "attendee"%string (i_allowedRegistrants ev);
     status := "open";
     deleted := default false (i_deleted ev) |}.

(** The insertions of event creation; each may throw. *)
Inductive CreateCall :=
| CallInsertEvent
| CallInsertSupervisors
| CallInsertRegistration.

(** [createEvent], with the primary key the database generates passed
    in.  A key that is taken makes the insertion throw, as a thrown
    storage call does; [None] stands for the exception. *)
Definition createEvent (throws : CreateCall -> bool) (newId : string)
    (ev : InsertEvent) (staffIds : option (list string)) (db : Db)
    : Db * option Event :=
  if throws CallInsertEvent || bool_decide (is_Some (events (store db) !! newId))
  then (db, None)
  else
    let newEvent := inserted_event ev in
    let db1 :=
      {| store := with_events (store db)
                    (<[newId := newEvent]> (events (store db)));
         eventSupervisors := eventSupervisors db |} in
    match staffIds with
    | Some (s :: l) =>
        if throws CallInsertSupervisors then (db1, None)
        else
          ({| store := store db1;
              eventSupervisors :=
                eventSupervisors db1 ++ supervisorData newId (s :: l) |},
           Some newEvent)
    | _ => (db1, Some newEvent)
    end.

(** The answers of [POST /api/admin/events]. *)
Inductive CreateResponse :=
| EventCreated (e : Event)   (* 201, the new row *)
| CreateFailed               (* 500 "Failed to create event" *).

(** [eventData] of the handler, for a body that [insertEventSchema]
    accepts. *)
Definition eventData_of (b : EventBody) : InsertEvent :=
  {| i_startTime := b_startTime b;
     i_maxSeats := Some (b_maxSeats b);
     i_remainingSeats := Some (b_remainingSeats b);
     i_creditsRequired := b_creditsRequired b;
     i_cutoffHours := Some (b_cutoffHours b);
     i_extraServices := Some (default [] (b_extraServices b));
     i_allowedRegistrants :=
       Some match b_allowedRegistrants b with
            | Some "" | None => "attendee"
            | Some s => s
            end%string;
     i_status := b_status b;
     i_deleted := b_deleted b |}.

(** The row of the administrator's automatic registration; both costs
    take the column default 0. *)
Definition auto_registration (evId adminUserId : string)
    : EventRegistration :=
  {| eventId := evId; childId := None; parentId := adminUserId;
     selectedServices := []; creditsCost := 0; servicesCost := zero |}.

(** [POST /api/admin/events], behind the guards, for a body that
    [insertEventSchema] accepts.  A failed automatic registration is
    logged and swallowed. *)
Definition post_admin_event (throws : CreateCall -> bool)
    (user : SessionUser) (newId : string) (b : EventBody)
    (staffIds : option (list string)) (db : Db) : Db * CreateResponse :=
  let adminUserId := session_userId user in
  match createEvent throws newId (eventData_of b) staffIds db with
  | (db1, None) => (db1, CreateFailed)
  | (db1, Some newEvent) =>
      let attending :=
        match staffIds with
        | Some l => bool_decide (adminUserId ∈ l)
        | None => false
        end in
      if attending && negb (throws CallInsertRegistration) then
        match createEventRegistration (store db1)
                (auto_registration newId adminUserId) with
        | Some (st2, _) =>
            ({| store := st2; eventSupervisors := eventSupervisors db1 |},
             EventCreated newEvent)
        | None => (db1, EventCreated newEvent)
        end
      else (db1, EventCreated newEvent)
  end.

(** The three events of [seedEvents], [now] being [Date.now()]. *)
Definition seed_data (now : Z) : list InsertEvent :=
  [ {| i_startTime := now + 2 * 60 * 60 * 1000;
       i_maxSeats := Some 5; i_remainingSeats := Some 2;
       i_creditsRequired := 3; i_cutoffHours := Some 12;
       i_extraServices := Some [mkExtraService (of_Z 10)];
       i_allowedRegistrants := None; i_status := None; i_deleted := None |};
    {| i_startTime := now + 3 * 60 * 60 * 1000;
       i_maxSeats := Some 3; i_remainingSeats := Some 1;
       i_creditsRequired := 4; i_cutoffHours := Some 12;
       i_extraServices := Some [];
       i_allowedRegistrants := None; i_status := None; i_deleted := None |};
    {| i_startTime := now + 4 * 60 * 60 * 1000;
       i_maxSeats := Some 8; i_remainingSeats := Some 0;
       i_creditsRequired := 2; i_cutoffHours := Some 12;
       i_extraServices := Some [mkExtraService (of_Z 5)];
       i_allowedRegistrants := None; i_status := None; i_deleted := None |} ].

(** [for (const event of seedEvents) await this.createEvent(event)]:
    the loop ends at the first insertion that throws. *)
Fixpoint create_all (throws : CreateCall -> bool)
    (rows : list (string * InsertEvent)) (db : Db) : Db :=
  match rows with
  | [] => db
  | (newId, ev) :: rest =>
      match createEvent throws newId ev None db with
      | (db1, Some _) => create_all throws rest db1
      | (db1, None) => db1
      end
  end.

(** [seedEvents], the generated keys passed in; the clock reads of one
    call are taken as one instant. *)
Definition seedEvents (throws : CreateCall -> bool) (now : Z)
    (newIds : string * string * string) (db : Db) : Db :=
  let existingEvents := getAllEvents (store db) now false in
  match existingEvents with
  | _ :: _ => db
  | [] =>
      let '(id1, id2, id3) := newIds in
      create_all throws (zip [id1; id2; id3] (seed_data now)) db
  end.

End Events.


(** ** The specification's vocabulary

    Definitions that follow the words of the specification, to be
    compared with the handlers above. *)

Module Spec.

Import JSNumber JSDate Schema Storage Routes Supervisors Events.

(** The event invariant [0 <= remainingSeats <= maxSeats]. *)
Definition seats_in_bounds (e : Event) : Prop :=
  0 <= remainingSeats e <= maxSeats e.

Definition seats_invariant (st : Store) : Prop :=
  map_Forall (fun _ e => seats_in_bounds e) (events st).

(** The operations that write to the events or the registrations: the
    registration request, the administrative routes that create, edit,
    mark, delete and restore an event, and the storage-level seat
    delta. *)
Inductive Operation :=
| OpRegister (tz : TimeZone) (flt : Faults) (now : Z) (user : SessionUser)
    (evId : string) (body : RegisterBody)
| OpCreateEvent (throws : CreateCall -> bool) (user : SessionUser)
    (newId : string) (b : EventBody) (staffIds : option (list string))
| OpPutEvent (flt : Faults) (evId : string) (b : EventBody)
    (staffIds : option (list string))
| OpPutEventStatus (flt : Faults) (evId : string) (s : string)
| OpDeleteEvent (flt : Faults) (evId : string)
| OpRestoreEvent (flt : Faults) (evId : string)
| OpUpdateEventSeats (evId : string) (seatsChange : Z).

(** One operation, carried out from its first storage call to its
    answer before the next one starts.  (What event creation does to
    the store does not depend on the rows of [event_supervisors].) *)
Definition step (st : Store) (op : Operation) : Store :=
  match op with
  | OpRegister tz flt now user evId body =>
      (post_register tz flt now user evId body st).1
  | OpCreateEvent throws user newId b staffIds =>
      store (post_admin_event throws user newId b staffIds
               {| store := st; eventSupervisors := [] |}).1
  | OpPutEvent flt evId b staffIds => (put_event flt evId b staffIds st).1
  | OpPutEventStatus flt evId s => (put_event_status flt evId s st).1
  | OpDeleteEvent flt evId => (delete_event flt evId st).1
  | OpRestoreEvent flt evId => (restore_event flt evId st).1
  | OpUpdateEventSeats evId seatsChange =>
      (updateEventSeats st evId seatsChange).1
  end.

Definition run (ops : list Operation) (st : Store) : Store :=
  fold_left step ops st.

(** An event creation, an administrative edit or a seat delta writes
    seat counts that are within bounds; the other operations write none
    of their own. *)
Definition writes_in_bounds (st : Store) (op : Operation) : Prop :=
  match op with
  | OpCreateEvent _ _ _ b _ => 0 <= b_remainingSeats b <= b_maxSeats b
  | OpPutEvent _ _ b _ => 0 <= b_remainingSeats b <= b_maxSeats b
  | OpUpdateEventSeats evId seatsChange =>
      forall e, getEvent st evId = Some e ->
                0 <= remainingSeats e + seatsChange <= maxSeats e
  | _ => True
  end.

Fixpoint all_writes_in_bounds (ops : list Operation) (st : Store) : Prop :=
  match ops with
  | [] => True
  | op :: rest =>
      writes_in_bounds st op /\ all_writes_in_bounds rest (step st op)
  end.

(** The rejection reasons of the error taxonomy. *)
Inductive RejectionReason :=
| NotFound
| EventFull
| RegistrationClosed
| RegistrantTypeNotAllowed
| AlreadyRegistered
| StorageFailure.

Definition rejection_reason (r : RegisterResponse) : option RejectionReason :=
  match r with
  | Created _ => None
  | EventNotFound | ChildNotFound => Some NotFound
  | NoSeatsAvailable => Some EventFull
  | DeadlinePassed => Some RegistrationClosed
  | OnlyOpenToChildren | OnlyOpenToParents => Some RegistrantTypeNotAllowed
  | ChildAlreadyRegistered | ParentAlreadyRegistered => Some AlreadyRegistered
  | FailedToRegister => Some StorageFailure
  end.

(** The six rules of the validation sequence. *)
Inductive Rule :=
| RuleEventExists
| RuleSeatsRemain
| RuleBeforeCutoff
| RuleRegistrantType
| RuleUnique
| RuleChildOwned.

Definition validation_sequence : list Rule :=
  [RuleEventExists; RuleSeatsRemain; RuleBeforeCutoff; RuleRegistrantType;
   RuleUnique; RuleChildOwned].

Definition reason_of_rule (r : Rule) : RejectionReason :=
  match r with
  | RuleEventExists => NotFound
  | RuleSeatsRemain => EventFull
  | RuleBeforeCutoff => RegistrationClosed
  | RuleRegistrantType => RegistrantTypeNotAllowed
  | RuleUnique => AlreadyRegistered
  | RuleChildOwned => NotFound
  end.

(** The rule a rejection answers to. *)
Definition violated_rule (r : RegisterResponse) : option Rule :=
  match r with
  | EventNotFound => Some RuleEventExists
  | NoSeatsAvailable => Some RuleSeatsRemain
  | DeadlinePassed => Some RuleBeforeCutoff
  | OnlyOpenToChildren | OnlyOpenToParents => Some RuleRegistrantType
  | ChildAlreadyRegistered | ParentAlreadyRegistered => Some RuleUnique
  | ChildNotFound => Some RuleChildOwned
  | Created _ | FailedToRegister => None
  end.

(** The three documented modes of [allowedRegistrants]. *)
Definition documented_mode (e : Event) : Prop :=
  allowedRegistrants e = "attendee"%string
  \/ allowedRegistrants e = "user"%string
  \/ allowedRegistrants e = "both"%string.

(** The child a request registers: the [childId] of its body, one that
    is empty counting as none. *)
Definition requested_child (body : RegisterBody) : option string :=
  match body_childId body with
  | Some c => if bool_decide (c = ""%string) then None else Some c
  | None => None
  end.

(** Rule 4 as the specification words it: the mode has to name the
    type of the registrant, alone or as [both]. *)
Definition mode_names (mode : string) (isChild : bool) : bool :=
  if isChild
  then String.eqb mode "attendee" || String.eqb mode "both"
  else String.eqb mode "user" || String.eqb mode "both".

(** Rule 4 read the other way round: mode [attendee], and an empty
    mode, turns parents away; mode [user] turns children away; no other
    mode turns anyone away. *)
Definition mode_admits (mode : string) (isChild : bool) : bool :=
  if String.eqb mode "attendee" || String.eqb mode "" then isChild
  else if String.eqb mode "user" then negb isChild
  else true.

(** Whether a rule holds of a request; [mode_rule] is the reading of
    rule 4.  The rules about the event row are read on the row when
    there is one. *)
Definition rule_holds (mode_rule : string -> bool -> bool) (now : Z)
    (st : Store) (userId evId : string) (child : option string) (r : Rule)
    : bool :=
  match r with
  | RuleEventExists =>
      match events st !! evId with
      | Some e => negb (deleted e)
      | None => false
      end
  | RuleSeatsRemain =>
      match events st !! evId with
      | Some e => 0 <? remainingSeats e
      | None => true
      end
  | RuleBeforeCutoff =>
      match events st !! evId with
      | Some e => now <=? startTime e - cutoffHours e * msPerHour
      | None => true
      end
  | RuleRegistrantType =>
      match events st !! evId with
      | Some e =>
          mode_rule (allowedRegistrants e) (bool_decide (is_Some child))
      | None => true
      end
  | RuleUnique =>
      match child with
      | Some c =>
          negb (existsb
                  (fun reg => bool_decide (eventId reg = evId)
                              && bool_decide (childId reg = Some c))
                  (eventRegistrations st))
      | None =>
          negb (existsb
                  (fun reg => bool_decide (eventId reg = evId)
                              && bool_decide (parentId reg = userId)
                              && bool_decide (childId reg = None))
                  (eventRegistrations st))
      end
  | RuleChildOwned =>
      match child with
      | Some c =>
          match attendee st !! c with
          | Some ch => bool_decide (child_parentId ch = userId)
          | None => false
          end
      | None => true
      end
  end.

Definition first_violated (mode_rule : string -> bool -> bool) (now : Z)
    (st : Store) (userId evId : string) (child : option string)
    : option Rule :=
  List.find (fun r => negb (rule_holds mode_rule now st userId evId child r))
    validation_sequence.

(** The registering parent's role. *)
Definition parent_role (st : Store) (user : SessionUser) : option string :=
  match user with
  | ReplitSession sub => role <$> getUserByReplitId st sub
  | LocalSession u => Some (role u)
  end.

Definition admin_or_staff (r : option string) : Prop :=
  r = Some "admin"%string \/ r = Some "staff"%string.

(** A price in the smallest currency unit: [round (price * 100)]. *)
Definition cents (s : ExtraService) : number :=
  Math_round (mul (price s) (of_Z 100)).




End Spec.

(** ** Sample data *)

Module Sample.

Import JSNumber JSDate Schema Storage Routes Interleaving Spec.

Definition hours (h : Z) : Z := h * msPerHour.

(** An event two days ahead of [now = 0], five seats, cutoff twelve
    hours, services priced 10.00 and 5.00. *)
Definition workshop : Event :=
  {| startTime := hours 48; maxSeats := 5; remainingSeats := 5;
     creditsRequired := 3; cutoffHours := 12;
     extraServices := [mkExtraService (of_Z 10); mkExtraService (of_Z 5)];
     allowedRegistrants := "both"; status := "open"; deleted := false |}.

Definition workshop_deleted : Event := set_deleted true workshop.

Definition workshop_editing : Event := set_status "editing" workshop.

(** Full, and six hours ahead with a twelve-hour cutoff. *)
Definition workshop_full_late : Event :=
  {| startTime := hours 6; maxSeats := 5; remainingSeats := 0;
     creditsRequired := 3; cutoffHours := 12;
     extraServices := []; allowedRegistrants := "both";
     status := "open"; deleted := false |}.

(** One seat, starting at instant 1000, no cutoff period. *)
Definition starting_now : Event :=
  {| startTime := 1000; maxSeats := 1; remainingSeats := 1;
     creditsRequired := 0; cutoffHours := 0;
     extraServices := []; allowedRegistrants := "both";
     status := "open"; deleted := false |}.

Definition parent1 : User :=
  {| user_id := "p1"; replitId := None; role := "user" |}.

Definition admin1 : User :=
  {| user_id := "a1"; replitId := None; role := "admin" |}.

Definition staff_replit : User :=
  {| user_id := "s1"; replitId := Some "replit-7"; role := "staff" |}.

Definition db : Store :=
  {| events :=
       <["e1" := workshop]>
         (<["e-deleted" := workshop_deleted]>
            (<["e-editing" := workshop_editing]>
               (<["e-full" := workshop_full_late]>
                  (<["e-now" := starting_now]> ∅))));
     attendee := <["c1" := mkChild "p1"]> (<["c2" := mkChild "p2"]> ∅);
     users := [parent1; admin1; staff_replit];
     eventRegistrations := [] |}.

Definition child_request : RegisterBody :=
  {| body_childId := Some "c1"; body_selectedServices := [0; 1; 7; -1] |}.

Definition self_request : RegisterBody :=
  {| body_childId := None; body_selectedServices := [] |}.

(** The store after parent [p1] registers child [c1] and administrator
    [a1] registers as a supervisor, both for event [e1]. *)
Definition db_registered : Store :=
  run [OpRegister utc_zone no_faults 0 (LocalSession parent1) "e1"
         child_request;
       OpRegister utc_zone no_faults 0 (LocalSession admin1) "e1"
         self_request] db.

Definition admin_self_row : EventRegistration :=
  {| eventId := "e1"; childId := None; parentId := "a1";
     selectedServices := []; creditsCost := 3; servicesCost := zero |}.

(** An edit of [e1] to ten remaining of five seats. *)
Definition overbooked_edit : EventBody :=
  {| b_id := None;
     b_startTime := hours 48; b_maxSeats := 5; b_remainingSeats := 10;
     b_creditsRequired := 3; b_cutoffHours := 12;
     b_extraServices := None; b_allowedRegistrants := None;
     b_status := None; b_deleted := None |}.


(** A zone two hours ahead of UTC whose clocks are put forward by one
    hour at instant [hours 40], between the cutoff and the start of
    [workshop]. *)
Definition summer_time_zone : TimeZone :=
  {| offset_at_utc := fun t => if t <? hours 40 then hours 2 else hours 3;
     offset_at_local := fun t => if t <? hours 42 then hours 2 else hours 3 |}.

(** [workshop] with another mode. *)
Definition workshop_with_mode (mode : string) : Event :=
  {| startTime := startTime workshop; maxSeats := maxSeats workshop;
     remainingSeats := remainingSeats workshop;
     creditsRequired := creditsRequired workshop;
     cutoffHours := cutoffHours workshop;
     extraServices := extraServices workshop;
     allowedRegistrants := mode;
     status := status workshop; deleted := deleted workshop |}.

(** Services priced 1.005, 0.125 and -0.125, and one of 30 000 000. *)
Definition tasting : Event :=
  {| startTime := hours 48; maxSeats := 5; remainingSeats := 5;
     creditsRequired := 2; cutoffHours := 12;
     extraServices :=
       [mkExtraService (div (of_Z 1005) (of_Z 1000));
        mkExtraService (div (of_Z 1) (of_Z 8));
        mkExtraService (div (of_Z (-1)) (of_Z 8));
        mkExtraService (of_Z 30000000)];
     allowedRegistrants := "both"; status := "open"; deleted := false |}.

(** A store with events of a mode outside the documented ones, of the
    empty mode, for parents only, deleted without a seat left, and with
    the priced services above. *)
Definition db_modes : Store :=
  {| events :=
       <["e-nobody" := workshop_with_mode "nobody"]>
         (<["e-default" := workshop_with_mode ""]>
            (<["e-parents" := workshop_with_mode "user"]>
               (<["e-deleted-full" := set_deleted true workshop_full_late]>
                  (<["e-tasting" := tasting]> ∅))));
     attendee := <["c1" := mkChild "p1"]> ∅;
     users := [parent1];
     eventRegistrations := [] |}.

(** A body whose [childId] is the empty string. *)
Definition blank_child_request : RegisterBody :=
  {| body_childId := Some ""%string; body_selectedServices := [] |}.



Definition tasting_request_costly : RegisterBody :=
  {| body_childId := Some "c1"; body_selectedServices := [3] |}.

(** The request of parent [p1] for child [c1] and the one-seat event
    [e-now], sent twice. *)
Definition last_seat_request : Request :=
  {| req_flt := no_faults; req_now := 0; req_user := LocalSession parent1;
     req_evId := "e-now"; req_body := child_request |}.

(** The two requests take turns at every storage call. *)
Definition turn_by_turn : list nat :=
  [0; 1; 0; 1; 0; 1; 0; 1; 0; 1]%nat.

(** One request runs to its answer before the other starts. *)
Definition one_after_the_other : list nat :=
  [0; 0; 0; 0; 0; 1; 1; 1; 1; 1]%nat.

End Sample.


(** ** server/storage.ts and server/routes.ts: users and roles *)

Module Users.

Import Schema Storage Routes.

Definition with_users (st : Store) (us : list User) : Store :=
  {| events := events st; attendee := attendee st; users := us;
     eventRegistrations := eventRegistrations st |}.

Definition set_role (r : string) (u : User) : User :=
  {| user_id := user_id u; replitId := replitId u; role := r |}.

Definition getAllUsers (st : Store) : list User := users st.

(** [updateUserRole]: [UPDATE users SET role = ... WHERE id = ...
    RETURNING *], answering the first updated row. *)
Definition updateUserRole (st : Store) (userId r : string)
    : Store * option User :=
  (with_users st
     ((fun u => if bool_decide (user_id u = userId) then set_role r u else u)
        <$> users st),
   set_role r <$> getUser st userId).

(** The answers of [PATCH /api/admin/users/:userId/role]. *)
Inductive RoleResponse :=
| RoleUpdated (u : User)   (* 200, the updated row *)
| InvalidRole              (* 400 "Invalid role" *)
| CannotAssignAdmin        (* 403 "Cannot assign admin role" *)
| UserNotFound             (* 404 "User not found" *)
| RoleUpdateFailed         (* 500 "Failed to update user role" *).

Definition assignable_roles : list string :=
  ["admin"; "staff"; "user"; "attendee"]%string.

(** The assignable roles other than [admin]. *)
Definition lesser_role (r : string) : Prop :=
  r = "staff"%string \/ r = "user"%string \/ r = "attendee"%string.

(** The handler of [PATCH /api/admin/users/:userId/role], behind the
    guards; [throws] tells whether the storage call throws. *)
Definition patch_user_role (throws : bool) (userId r : string) (st : Store)
    : Store * RoleResponse :=
  if negb (bool_decide (r ∈ assignable_roles)) then (st, InvalidRole)
  else if String.eqb r "admin" then (st, CannotAssignAdmin)
  else if throws then (st, RoleUpdateFailed)
  else
    match updateUserRole st userId r with
    | (st', Some updatedUser) => (st', RoleUpdated updatedUser)
    | (st', None) => (st', UserNotFound)
    end.

End Users.

(** ** server/auth.ts: sessions and guards *)

Module Auth.

Import Schema Storage Routes.

(** What a session cookie identifies: the [sub] claim of a Replit OAuth
    login, or the user id serialized by [passport.serializeUser]. *)
Inductive SessionCookie :=
| NoSession
| ReplitCookie (sub : string)
| LocalCookie (id : string).

(** What [passport] makes of the session cookie at every request: no
    user without a session; the claims of a Replit session; for an
    email/password session the user row read by
    [passport.deserializeUser], and a failure of the request when that
    row is gone ([done(null, undefined)]).  A lookup that throws ends
    the request with an error as well, before any middleware or handler
    runs. *)
Inductive Deserialized :=
| NoUser
| UserGone
| SessionOf (user : SessionUser).

Definition deserializeUser (st : Store) (c : SessionCookie) : Deserialized :=
  match c with
  | NoSession => NoUser
  | ReplitCookie sub => SessionOf (ReplitSession sub)
  | LocalCookie id =>
      match getUser st id with
      | Some u => SessionOf (LocalSession u)
      | None => UserGone
      end
  end.

(** The outcome of a middleware. *)
Inductive Guard :=
| Next
| Unauthorized             (* 401 "Unauthorized" *)
| Forbidden                (* 403 "Admin access required" *)
| GuardFailed              (* 500 "Failed to verify admin status" *)
| DeserializeFailed
    (* 500 "Failed to deserialize user out of session" *).

(** [isAuthenticated]: [req.isAuthenticated() && req.user]. *)
Definition isAuthenticated (user : option SessionUser) : Guard :=
  match user with
  | Some _ => Next
  | None => Unauthorized
  end.

(** The middleware of [createIsAdminMiddleware]. *)
Definition isAdmin (flt : Faults) (st : Store) (user : option SessionUser)
    : Guard :=
  match user with
  | None => Unauthorized
  | Some (ReplitSession sub) =>
      if flt CallGetUserByReplitId then GuardFailed
      else
        match getUserByReplitId st sub with
        | Some u => if String.eqb (role u) "admin" then Next else Forbidden
        | None => Forbidden
        end
  | Some (LocalSession u) =>
      if String.eqb (role u) "admin" then Next else Forbidden
  end.

(** The answer of a guarded route. *)
Inductive Guarded (A : Type) :=
| Denied (g : Guard)
| Handled (a : A).

Arguments Denied {A} g.
Arguments Handled {A} a.

(** [app.put(path, isAuthenticated, isAdmin, handler)]: the handler
    runs when both middlewares call [next()]. *)
Definition admin_route {A : Type} (flt : Faults) (c : SessionCookie)
    (handler : SessionUser -> Store -> Store * A) (st : Store)
    : Store * Guarded A :=
  match deserializeUser st c with
  | UserGone => (st, Denied DeserializeFailed)
  | NoUser => (st, Denied (isAuthenticated None))
  | SessionOf u =>
      match isAuthenticated (Some u) with
      | Next =>
          match isAdmin flt st (Some u) with
          | Next => let '(st', a) := handler u st in (st', Handled a)
          | g => (st, Denied g)
          end
      | g => (st, Denied g)
      end
  end.

(** The user row that decides the role of a session. *)
Definition current_user (st : Store) (c : SessionCookie) : option User :=
  match c with
  | NoSession => None
  | ReplitCookie sub => getUserByReplitId st sub
  | LocalCookie id => getUser st id
  end.

End Auth.


(** ** server/storage.ts and server/routes.ts: children *)

Module Children.

Import Schema Storage Routes.

Definition with_attendee (st : Store) (cs : gmap string Child) : Store :=
  {| events := events st; attendee := cs; users := users st;
     eventRegistrations := eventRegistrations st |}.

(** [Partial<InsertChild>], of which [parentId] is the column modelled. *)
Record ChildPatch := mkChildPatch {
  cp_parentId : option string
}.

Definition set_child_fields (p : ChildPatch) (c : Child) : Child :=
  {| child_parentId := default (child_parentId c) (cp_parentId p) |}.

Definition getChildrenByParentId (st : Store) (pid : string)
    : list (string * Child) :=
  filter (fun row => child_parentId row.2 = pid) (map_to_list (attendee st)).

Definition updateChild (st : Store) (id : string) (childData : ChildPatch)
    : Store * option Child :=
  match attendee st !! id with
  | Some c =>
      (with_attendee st (<[id := set_child_fields childData c]> (attendee st)),
       Some (set_child_fields childData c))
  | None => (st, None)
  end.

(** [deleteChild]: [DELETE FROM attendee WHERE id = ...]; the foreign
    key of [event_registrations.child_id] is declared
    [onDelete: 'cascade'], so the registrations of the child go with
    it.  The answer is [rowCount > 0]. *)
Definition deleteChild (st : Store) (id : string) : Store * bool :=
  match attendee st !! id with
  | Some _ =>
      ({| events := events st;
          attendee := delete id (attendee st);
          users := users st;
          eventRegistrations :=
            filter (fun r => childId r ≠ Some id) (eventRegistrations st) |},
       true)
  | None => (st, false)
  end.

(** The answers of the child routes. *)
Inductive ChildResponse :=
| ChildUpdated (c : Child)   (* 200, the updated row *)
| ChildDeleted               (* 204 *)
| NoSuchChild                (* 404 "Child not found" *)
| ChildFailed                (* 500 *).

Inductive ChildCall := CallReadChild | CallWriteChild.

(** [PUT /api/children/:id], for a body that
    [insertChildSchema.partial()] accepts. *)
Definition put_child (throws : ChildCall -> bool) (user : SessionUser)
    (cid : string) (body : ChildPatch) (st : Store) : Store * ChildResponse :=
  let userId := session_userId user in
  if throws CallReadChild then (st, ChildFailed)
  else
    match getChild st cid with
    | None => (st, NoSuchChild)
    | Some existingChild =>
        if bool_decide (child_parentId existingChild = userId) then
          if throws CallWriteChild then (st, ChildFailed)
          else
            match updateChild st cid body with
            | (st', Some updatedChild) => (st', ChildUpdated updatedChild)
            | (st', None) => (st', NoSuchChild)
            end
        else (st, NoSuchChild)
    end.

(** [DELETE /api/children/:id]. *)
Definition delete_child (throws : ChildCall -> bool) (user : SessionUser)
    (cid : string) (st : Store) : Store * ChildResponse :=
  let userId := session_userId user in
  if throws CallReadChild then (st, ChildFailed)
  else
    match getChild st cid with
    | None => (st, NoSuchChild)
    | Some existingChild =>
        if bool_decide (child_parentId existingChild = userId) then
          if throws CallWriteChild then (st, ChildFailed)
          else
            match deleteChild st cid with
            | (st', true) => (st', ChildDeleted)
            | (st', false) => (st', NoSuchChild)
            end
        else (st, NoSuchChild)
    end.

End Children.


(** ** Invariants of the registrations table *)

Module Invariants.

Import Schema Storage.

(** The rows that register child [c] for event [ev]. *)
Definition child_rows (st : Store) (ev c : string) : list EventRegistration :=
  filter (fun r => eventId r = ev /\ childId r = Some c)
    (eventRegistrations st).

(** The rows that register parent [p], without a child, for event [ev]. *)
Definition parent_rows (st : Store) (ev p : string) : list EventRegistration :=
  filter (fun r => eventId r = ev /\ parentId r = p /\ childId r = None)
    (eventRegistrations st).

(** No child, and no parent alone, is registered twice for an event. *)
Definition no_double_booking (st : Store) : Prop :=
  (forall ev c, (length (child_rows st ev c) <= 1)%nat)
  /\ (forall ev p, (length (parent_rows st ev p) <= 1)%nat).

(** The foreign key of [event_registrations.event_id]: every row
    belongs to a stored event. *)
Definition rows_reference_events (st : Store) : Prop :=
  forall r, r ∈ eventRegistrations st -> is_Some (events st !! eventId r).

End Invariants.

(** ** More sample data *)

Module Sample2.

Import JSNumber JSDate Schema Storage Routes Spec Sample.
Import Users Auth Supervisors Children Events.


Definition parent2 : User :=
  {| user_id := "p2"; replitId := None; role := "user" |}.

Definition never_throws : CreateCall -> bool := fun _ => false.

Definition child_never_throws : ChildCall -> bool := fun _ => false.

Definition empty_db : Db :=
  {| store := {| events := ∅; attendee := ∅; users := [admin1];
                 eventRegistrations := [] |};
     eventSupervisors := [] |}.

Definition sample_db : Db := {| store := db; eventSupervisors := [] |}.

(** A body asking for status [editing] and six of six seats. *)
Definition new_event_body : EventBody :=
  {| b_id := None;
     b_startTime := hours 72; b_maxSeats := 6; b_remainingSeats := 6;
     b_creditsRequired := 2; b_cutoffHours := 24;
     b_extraServices := None; b_allowedRegistrants := Some "both"%string;
     b_status := Some "editing"%string; b_deleted := None |}.

Definition supervisor_rows : list EventSupervisor :=
  [mkEventSupervisor "e1" "s1"; mkEventSupervisor "e-full" "a1";
   mkEventSupervisor "e1" "a1"].

End Sample2.

(** * Properties *)

Import JSNumber JSDate Schema Storage Routes Supervisors Events Spec.

(** ** Dates *)

(** In a zone with a fixed offset, moving the hour field back by [h]
    hours moves the instant back by [h] hours, whatever the offset. *)
Lemma setHours_getHours_back (tz : TimeZone) (t h : Z) :
  fixed_offset tz ->
  setHours tz t (getHours tz t - h) = t - h * msPerHour.
Proof.
  intros [offset Hfixed].
  unfold setHours, getHours, LocalTime, UTC.
  rewrite (proj1 (Hfixed t)), (proj2 (Hfixed _)).
  set (local := t + offset).
  pose proof (Z.div_mod local msPerDay) as Hday.
  pose proof (Z.div_mod (local mod msPerDay) msPerHour) as Hhour.
  unfold msPerDay, msPerHour in *.
  lia.
Qed.

Lemma fixed_zone_fixed (offset : Z) : fixed_offset (fixed_zone offset).
Proof. exists offset. intros t. split; reflexivity. Qed.

(** The cutoff instant of the registration handler is the start time
    less the cutoff hours in a zone with a fixed offset. *)
Lemma register_cutoffTime_eq (tz : TimeZone) (e : Event) :
  fixed_offset tz ->
  register_cutoffTime tz e = startTime e - cutoffHours e * msPerHour.
Proof. apply setHours_getHours_back. Qed.

(** It is not where the offset changes between the two instants: when
    the clocks are put forward in between, the handler's cutoff for the
    sample event, twelve hours by the event, is eleven hours before the
    start. *)
Lemma register_cutoffTime_summer_time :
  register_cutoffTime Sample.summer_time_zone Sample.workshop
  = startTime Sample.workshop - 11 * msPerHour.
Proof. reflexivity. Qed.

(** ** Status derivation *)

Lemma calculateEventStatus_never_editing (now : Z) (e : Event) :
  calculateEventStatus now e ≠ editing.
Proof.
  unfold calculateEventStatus.
  repeat case_match; discriminate.
Qed.

(** The stored [status] has no influence on the calculated one. *)
Lemma calculateEventStatus_ignores_status (now : Z) (e : Event) (s : string) :
  calculateEventStatus now (set_status s e) = calculateEventStatus now e.
Proof. reflexivity. Qed.

(** C3: an event stored with status [editing] is not derived as
    [editing]: [calculateEventStatus] has no rule for the override, and
    [getAllEvents] replaces the stored status by the calculated one.
    The sample event marked as being edited is calculated [open], and
    the listing for ordinary users, which means to hide events being
    edited, shows it as an open event. *)
Theorem editing_override_is_lost :
  status Sample.workshop_editing = "editing"%string
  /\ calculateEventStatus 0 Sample.workshop_editing = open
  /\ ("e-editing"%string, set_status "open" Sample.workshop_editing)
       ∈ getEventsForUser Sample.db 0.
Proof.
  split; [reflexivity|]. split; [reflexivity|].
  apply list_elem_of_In. vm_compute. right; left; reflexivity.
Qed.

(** C9, as the claim states it, fails at the boundary: at the very
    instant the event starts, the event with a free seat and no cutoff
    period is [open]. *)
Lemma status_at_start_not_past :
  status Sample.starting_now ≠ "editing"%string
  /\ 1000 >= startTime Sample.starting_now
  /\ calculateEventStatus 1000 Sample.starting_now ≠ past.
Proof. repeat split; vm_compute; discriminate. Qed.

(** C9, amended: once the start time lies strictly in the past the
    status is [past], whatever the seats and the cutoff; at the start
    instant itself the remaining rules decide. *)
Theorem past_after_start (now : Z) (e : Event) :
  (startTime e < now -> calculateEventStatus now e = past)
  /\ (now = startTime e ->
      calculateEventStatus now e =
        if remainingSeats e <=? 0 then full
        else if 0 <? cutoffHours e then registration_closed
        else open).
Proof.
  unfold calculateEventStatus. split.
  - intros Hlt. apply Z.ltb_lt in Hlt. now rewrite Hlt.
  - intros ->. rewrite Z.ltb_irrefl.
    destruct (remainingSeats e <=? 0); [reflexivity|].
    destruct (Z.ltb_spec 0 (cutoffHours e)) as [Hc|Hc];
      [ rewrite (proj2 (Z.ltb_lt _ _)) | rewrite (proj2 (Z.ltb_ge _ _)) ];
      (reflexivity || lia).
Qed.

Lemma past_after_start_witness :
  calculateEventStatus 1001 Sample.starting_now = past
  /\ calculateEventStatus 1000 Sample.starting_now = open.
Proof.
  split.
  - apply (proj1 (past_after_start 1001 Sample.starting_now)).
    vm_compute. reflexivity.
  - apply (proj2 (past_after_start 1000 Sample.starting_now)).
    reflexivity.
Defined.

(** ** Administrative status update *)

Lemma put_event_status_unknown_id (evId s : string) (st : Store) :
  getEvent st evId = None ->
  put_event_status no_faults evId s st = (st, AdminEventNotFound).
Proof.
  unfold put_event_status, updateEventStatus, update_returning, getEvent.
  intros ->. reflexivity.
Qed.

(** Every string is written through as the new status. *)
Lemma put_event_status_writes_any (evId s : string) (st : Store) (e : Event) :
  getEvent st evId = Some e ->
  exists st',
    put_event_status no_faults evId s st = (st', Ok (set_status s e))
    /\ getEvent st' evId = Some (set_status s e).
Proof.
  unfold put_event_status, updateEventStatus, update_returning, getEvent.
  intros ->. eexists. split; [reflexivity|].
  cbn. apply lookup_insert_eq.
Qed.

(** C8: the status route checks nothing.  The string [bogus], outside
    the five statuses, is answered with 200 and stored as the status of
    the sample event; an unknown event id is answered with 404. *)
Theorem status_update_accepts_unknown_status :
  (forall s, status_string s ≠ "bogus"%string)
  /\ (put_event_status no_faults "e1" "bogus" Sample.db).2
     = Ok (set_status "bogus" Sample.workshop)
  /\ status <$> getEvent
       (put_event_status no_faults "e1" "bogus" Sample.db).1 "e1"
     = Some "bogus"%string
  /\ (put_event_status no_faults "no-such-event" "open" Sample.db).2
     = AdminEventNotFound.
Proof.
  split; [intros []; discriminate|].
  repeat split; vm_compute; reflexivity.
Qed.

(** ** Soft-deleted and unknown events *)

Lemma register_unknown_event (tz : TimeZone) (flt : Faults) (now : Z)
    (user : SessionUser)
    (evId : string) (body : RegisterBody) (st : Store) :
  flt CallGetEvent = false ->
  getEvent st evId = None ->
  post_register tz flt now user evId body st = (st, EventNotFound).
Proof.
  intros Hflt Hnone. unfold post_register. now rewrite Hflt, Hnone.
Qed.

(** [getEvent] returns a row whatever its [deleted] flag. *)
Lemma getEvent_ignores_deleted (st : Store) (evId : string) (e : Event) :
  events st !! evId = Some e -> getEvent st evId = Some e.
Proof. trivial. Qed.

(** C4: a registration for the soft-deleted sample event is accepted:
    the answer is 201, the row is inserted and a seat is taken. *)
Theorem soft_deleted_event_accepts_registration :
  deleted <$> getEvent Sample.db "e-deleted" = Some true
  /\ http_status
       (post_register utc_zone no_faults 0 (LocalSession Sample.parent1)
          "e-deleted" Sample.child_request Sample.db).2 = 201
  /\ length (eventRegistrations
       (post_register utc_zone no_faults 0 (LocalSession Sample.parent1)
          "e-deleted" Sample.child_request Sample.db).1) = 1%nat
  /\ remainingSeats <$> getEvent
       (post_register utc_zone no_faults 0 (LocalSession Sample.parent1)
          "e-deleted" Sample.child_request Sample.db).1 "e-deleted" = Some 4.
Proof. repeat split; vm_compute; reflexivity. Qed.

(** ** The detailed listing of a parent's registrations *)

Lemma join_details_child (st : Store) (r : EventRegistration)
    (d : RegistrationDetails) :
  join_details st r = Some d ->
  d_registration d = r /\ childId r = Some (d_child_id d).
Proof.
  unfold join_details. intros H.
  destruct (events st !! eventId r) as [e|]; [|discriminate].
  destruct (childId r) as [c|]; [|discriminate].
  cbn in H. destruct (attendee st !! c); [|discriminate].
  cbn in H. injection H as <-. split; reflexivity.
Qed.

Lemma details_listing_elem (st : Store) (pid : string)
    (d : RegistrationDetails) :
  d ∈ getEventRegistrationsWithDetailsForParent st pid <->
  exists r, r ∈ eventRegistrations st /\ parentId r = pid
            /\ join_details st r = Some d.
Proof.
  unfold getEventRegistrationsWithDetailsForParent.
  rewrite merge_sort_Permutation, list_elem_of_omap.
  split.
  - intros (r & Hr & Hj). apply list_elem_of_filter in Hr as [Hp Hr]. eauto.
  - intros (r & Hr & Hp & Hj). exists r. split; [|done].
    apply list_elem_of_filter; done.
Qed.

(** C10: every row of the detailed listing carries a child; a
    parent-self registration of the parent is in the plain listing and
    in no row of the detailed one. *)
Theorem details_listing_omits_parent_self (st : Store) (pid : string) :
  (forall d, d ∈ getEventRegistrationsWithDetailsForParent st pid ->
             is_Some (childId (d_registration d)))
  /\ (forall r, r ∈ eventRegistrations st -> parentId r = pid ->
                childId r = None ->
                r ∈ getEventRegistrationsByParent st pid
                /\ forall d,
                     d ∈ getEventRegistrationsWithDetailsForParent st pid ->
                     d_registration d ≠ r).
Proof.
  split.
  - intros d (r & _ & _ & Hj)%details_listing_elem.
    apply join_details_child in Hj as [-> ->]. eauto.
  - intros r Hr Hp Hnone. split.
    + unfold getEventRegistrationsByParent. apply list_elem_of_filter; done.
    + intros d (r' & _ & _ & Hj)%details_listing_elem Heq.
      apply join_details_child in Hj as [Hd Hc]. congruence.
Qed.

Lemma details_listing_omits_parent_self_witness :
  Sample.admin_self_row ∈ getEventRegistrationsByParent Sample.db_registered "a1"
  /\ getEventRegistrationsWithDetailsForParent Sample.db_registered "a1" = [].
Proof.
  assert (Hin : Sample.admin_self_row ∈ eventRegistrations Sample.db_registered).
  { apply list_elem_of_In. vm_compute. right; left; reflexivity. }
  destruct (details_listing_omits_parent_self Sample.db_registered "a1")
    as [_ Hself].
  destruct (Hself Sample.admin_self_row Hin eq_refl eq_refl) as [Hplain _].
  split; [exact Hplain | vm_compute; reflexivity].
Defined.

(** ** The order of the admission checks *)

Lemma existsb_filter {A} (P : A -> Prop) `{!forall x, Decision (P x)}
    (f : A -> bool) (l : list A) :
  existsb f (filter P l) = existsb (fun x => bool_decide (P x) && f x) l.
Proof.
  induction l as [|x l IH]; [reflexivity|].
  rewrite filter_cons. cbn [existsb].
  destruct (decide (P x)) as [HP|HP].
  - rewrite bool_decide_eq_true_2 by assumption. cbn. now rewrite IH.
  - rewrite bool_decide_eq_false_2 by assumption. cbn. exact IH.
Qed.

Lemma child_unique_rule (st : Store) (c evId : string) :
  isChildRegisteredForEvent st c evId =
  existsb (fun reg => bool_decide (eventId reg = evId)
                      && bool_decide (childId reg = Some c))
    (eventRegistrations st).
Proof.
  unfold isChildRegisteredForEvent.
  induction (eventRegistrations st) as [|r l IH]; [reflexivity|].
  cbn [existsb]. rewrite IH. f_equal. apply andb_comm.
Qed.

Lemma parent_unique_rule (st : Store) (userId evId : string) :
  existsb (fun reg => bool_decide (eventId reg = evId)
                      && bool_decide (childId reg = None))
    (getEventRegistrationsByParent st userId) =
  existsb (fun reg => bool_decide (eventId reg = evId)
                      && bool_decide (parentId reg = userId)
                      && bool_decide (childId reg = None))
    (eventRegistrations st).
Proof.
  unfold getEventRegistrationsByParent. rewrite existsb_filter.
  induction (eventRegistrations st) as [|r l IH]; [reflexivity|].
  cbn [existsb]. rewrite IH. f_equal.
  destruct (bool_decide (parentId r = userId)),
    (bool_decide (eventId r = evId)); reflexivity.
Qed.

(** The handler registers a child exactly when the body names one. *)
Lemma requested_child_eq (body : RegisterBody) :
  childId_or_null (body_childId body) = requested_child body.
Proof.
  unfold childId_or_null, requested_child.
  destruct (body_childId body) as [[|a c]|]; reflexivity.
Qed.

(** The two guards of the handler on the mode, its default included,
    read as one rule. *)
Lemma mode_admits_guards (e : Event) (isChild : bool) :
  mode_admits (allowedRegistrants e) isChild
  = negb (String.eqb (allowedRegistrants_or_default e) "attendee"
          && negb isChild)
    && negb (String.eqb (allowedRegistrants_or_default e) "user" && isChild).
Proof.
  unfold mode_admits, allowedRegistrants_or_default.
  destruct (allowedRegistrants e) as [|a m]; [now destruct isChild|].
  change (String.eqb (String a m) "") with false. rewrite orb_false_r.
  destruct (String.eqb_spec (String a m) "attendee") as [Heq|Hne].
  - rewrite Heq. now destruct isChild.
  - destruct (String.eqb (String a m) "user"); now destruct isChild.
Qed.

(** For a documented mode the two readings of rule 4 agree. *)
Lemma mode_admits_documented (e : Event) (isChild : bool) :
  documented_mode e ->
  mode_admits (allowedRegistrants e) isChild
  = mode_names (allowedRegistrants e) isChild.
Proof. intros [-> | [-> | ->]]; now destruct isChild. Qed.

(** The checks on the event row, read as rules 2 to 4. *)
Lemma check_event_rules (tz : TimeZone) (now : Z) (st : Store)
    (userId evId : string) (child : option string) (e : Event) :
  events st !! evId = Some e ->
  fixed_offset tz ->
  let holds := rule_holds mode_admits now st userId evId child in
  violated_rule <$> check_event tz now e (bool_decide (is_Some child)) =
    if negb (holds RuleSeatsRemain) then Some (Some RuleSeatsRemain)
    else if negb (holds RuleBeforeCutoff) then Some (Some RuleBeforeCutoff)
    else if negb (holds RuleRegistrantType) then Some (Some RuleRegistrantType)
    else None.
Proof.
  intros He Htz. cbn [rule_holds]. rewrite He.
  unfold check_event. rewrite register_cutoffTime_eq by assumption.
  rewrite (Z.leb_antisym 0 (remainingSeats e)).
  destruct (0 <? remainingSeats e); cbn; [|reflexivity].
  rewrite (Z.ltb_antisym now).
  destruct (now <=? _); cbn; [|reflexivity].
  rewrite mode_admits_guards.
  destruct (String.eqb (allowedRegistrants_or_default e) "attendee"
            && negb (bool_decide (is_Some child))); [reflexivity|].
  destruct (String.eqb (allowedRegistrants_or_default e) "user"
            && bool_decide (is_Some child)); reflexivity.
Qed.

(** The duplicate and ownership checks, read as rules 5 and 6. *)
Lemma check_registrant_rules (mode_rule : string -> bool -> bool) (now : Z)
    (st : Store) (userId evId : string) (child : option string) :
  let holds := rule_holds mode_rule now st userId evId child in
  violated_rule <$> check_registrant no_faults st userId evId child =
    if negb (holds RuleUnique) then Some (Some RuleUnique)
    else if negb (holds RuleChildOwned) then Some (Some RuleChildOwned)
    else None.
Proof.
  cbn [rule_holds]. unfold check_registrant, no_faults, getChild.
  destruct child as [c|].
  - rewrite child_unique_rule.
    destruct (existsb _ _); cbn; [reflexivity|].
    destruct (attendee st !! c) as [ch|]; cbn; [|reflexivity].
    destruct (bool_decide (child_parentId ch = userId)); reflexivity.
  - cbn zeta. rewrite parent_unique_rule.
    destruct (existsb _ _); reflexivity.
Qed.

(** Without storage faults no check answers 500. *)
Lemma check_registrant_no_faults (st : Store) (userId evId : string)
    (child : option string) :
  check_registrant no_faults st userId evId child ≠ Some FailedToRegister.
Proof.
  unfold check_registrant, no_faults.
  repeat case_match; discriminate.
Qed.

Lemma update_seats_no_faults (st : Store) (user : SessionUser)
    (evId : string) (isChild : bool) :
  is_Some (update_seats_after_insert no_faults st user evId isChild).
Proof.
  unfold update_seats_after_insert, userRole_of, no_faults.
  repeat case_match; simplify_eq; eauto.
Qed.

Lemma rejection_reason_of_rule (a : RegisterResponse) (r : Rule) :
  violated_rule a = Some r -> rejection_reason a = Some (reason_of_rule r).
Proof. destruct a; intros [= <-]; reflexivity. Qed.

(** C5, as the claim states it, fails: the handler's checks are not the
    rules of the validation sequence.  A child is registered for the
    sample event whose mode is none of the documented ones, against
    rule 4; a request for a soft-deleted event without seats is
    rejected for the seats, not as not found; and on a server whose
    clocks are put forward between cutoff and start, a request later
    than the event's cutoff hours is accepted. *)
Lemma checks_differ_from_rules :
  (first_violated mode_names 0 Sample.db_modes "p1" "e-nobody" (Some "c1")
   = Some RuleRegistrantType
   /\ http_status
        (post_register utc_zone no_faults 0 (LocalSession Sample.parent1)
           "e-nobody" Sample.child_request Sample.db_modes).2 = 201)
  /\ (first_violated mode_names 0 Sample.db_modes "p1" "e-deleted-full"
        (Some "c1") = Some RuleEventExists
      /\ rejection_reason
           (post_register utc_zone no_faults 0 (LocalSession Sample.parent1)
              "e-deleted-full" Sample.child_request Sample.db_modes).2
         = Some EventFull)
  /\ (first_violated mode_names (Sample.hours 36 + 1) Sample.db "p1" "e1"
        (Some "c1") = Some RuleBeforeCutoff
      /\ http_status
           (post_register Sample.summer_time_zone no_faults
              (Sample.hours 36 + 1) (LocalSession Sample.parent1) "e1"
              Sample.child_request Sample.db).2 = 201).
Proof. repeat split; vm_compute; reflexivity. Qed.

(** C5, amended: for an event that is not soft-deleted, on a server
    whose time zone has a fixed offset from UTC, and when no storage
    call throws, the handler evaluates the checks in the fixed order and
    answers with the reason of the first one that fails, rule 4 being
    read as: mode [attendee] or an empty mode turns parents away, mode
    [user] turns children away, and every other mode admits both.  A
    request that fails no check is accepted, unless its services cost is
    no value of the cost column, which is answered 500.  In particular a
    request for an event without remaining seats is rejected for the
    seats, whether or not the cutoff has passed, in any time zone. *)
Theorem register_checks_in_order (tz : TimeZone) (now : Z)
    (user : SessionUser) (evId : string) (body : RegisterBody) (st : Store) :
  let answer := (post_register tz no_faults now user evId body st).2 in
  let violated :=
    first_violated mode_admits now st (session_userId user) evId
      (requested_child body) in
  (forall e, getEvent st evId = Some e -> deleted e = false) ->
  (forall e, getEvent st evId = Some e -> remainingSeats e <= 0 ->
     answer = NoSeatsAvailable /\ rejection_reason answer = Some EventFull)
  /\ (fixed_offset tz ->
      violated_rule answer = violated
      /\ (forall r, violated = Some r ->
            rejection_reason answer = Some (reason_of_rule r))
      /\ (violated = None ->
          exists e,
            getEvent st evId = Some e
            /\ answer
               = match int4 (servicesCost_of e (body_selectedServices body))
                 with
                 | Some _ => Created (registrationWithCosts user evId body e)
                 | None => FailedToRegister
                 end)).
Proof.
  intros answer violated Hdel. split.
  { intros e He Hseats. subst answer.
    unfold post_register. cbn [no_faults]. rewrite He.
    unfold check_event. rewrite (proj2 (Z.leb_le _ _) Hseats).
    split; reflexivity. }
  intros Htz.
  assert (Hrule : violated_rule answer = violated
                  /\ (violated = None ->
                      exists e,
                        getEvent st evId = Some e
                        /\ answer
                           = match int4 (servicesCost_of e
                                           (body_selectedServices body)) with
                             | Some _ =>
                                 Created (registrationWithCosts user evId
                                            body e)
                             | None => FailedToRegister
                             end)).
  { subst answer violated. rewrite <- requested_child_eq.
    unfold post_register, first_violated, getEvent in *.
    cbn [no_faults validation_sequence List.find].
    set (child := childId_or_null (body_childId body)).
    set (holds := rule_holds mode_admits now st (session_userId user) evId
                    child).
    pose proof (check_event_rules tz now st (session_userId user) evId child)
      as Hev.
    pose proof (check_registrant_rules mode_admits now st
                  (session_userId user) evId child) as Hreg.
    pose proof (check_registrant_no_faults st (session_userId user) evId
                  child) as Hnf.
    cbn zeta in Hev, Hreg. fold holds in Hev, Hreg.
    assert (H1 : holds RuleEventExists
                 = match events st !! evId with
                   | Some e => negb (deleted e)
                   | None => false
                   end) by reflexivity.
    rewrite H1. clear H1. clearbody holds.
    destruct (events st !! evId) as [e|] eqn:He;
      [|split; [reflexivity|discriminate]].
    rewrite (Hdel e eq_refl). cbn [negb].
    specialize (Hev e eq_refl Htz).
    destruct (check_event tz now e _) as [a|];
      cbn [fmap option_fmap option_map] in Hev.
    - cbn [snd]. revert Hev.
      destruct (holds RuleSeatsRemain); cbn [negb];
        [|intros [= Ha]; split; [exact Ha|discriminate]].
      destruct (holds RuleBeforeCutoff); cbn [negb];
        [|intros [= Ha]; split; [exact Ha|discriminate]].
      destruct (holds RuleRegistrantType); cbn [negb];
        [|intros [= Ha]; split; [exact Ha|discriminate]].
      intros Hev. discriminate Hev.
    - revert Hev.
      destruct (holds RuleSeatsRemain); cbn [negb]; [|discriminate].
      destruct (holds RuleBeforeCutoff); cbn [negb]; [|discriminate].
      destruct (holds RuleRegistrantType); cbn [negb]; [|discriminate].
      intros _.
      destruct (check_registrant _ _ _ _ _) as [a|];
        cbn [fmap option_fmap option_map] in Hreg.
      + cbn [snd]. revert Hreg.
        destruct (holds RuleUnique); cbn [negb];
          [|intros [= Ha]; split; [exact Ha|discriminate]].
        destruct (holds RuleChildOwned); cbn [negb];
          [|intros [= Ha]; split; [exact Ha|discriminate]].
        intros Hreg. discriminate Hreg.
      + revert Hreg.
        destruct (holds RuleUnique); cbn [negb]; [|discriminate].
        destruct (holds RuleChildOwned); cbn [negb]; [|discriminate].
        intros _. unfold createEventRegistration.
        cbn [registrationWithCosts servicesCost].
        destruct (int4 _) as [z|] eqn:Hint.
        2:{ split; [reflexivity|]. intros _. exists e.
            split; [reflexivity|]. now rewrite Hint. }
        destruct (update_seats_no_faults
                    (with_new_registration st
                       (registrationWithCosts user evId body e))
                    user evId (bool_decide (is_Some child))) as [st2 Hst2].
        rewrite Hst2. split; [reflexivity|]. intros _. exists e.
        split; [reflexivity|]. now rewrite Hint. }
  destruct Hrule as [Hrule Hpass]. split; [exact Hrule|]. split; [|exact Hpass].
  intros r Hr. apply rejection_reason_of_rule. now rewrite Hrule.
Qed.

Lemma register_checks_in_order_witness :
  (post_register utc_zone no_faults 0 (LocalSession Sample.parent1) "e-full"
     Sample.child_request Sample.db).2 = NoSeatsAvailable
  /\ violated_rule
       (post_register utc_zone no_faults 0 (LocalSession Sample.parent1)
          "e-default" Sample.self_request Sample.db_modes).2
     = Some RuleRegistrantType
  /\ violated_rule
       (post_register utc_zone no_faults 0 (LocalSession Sample.parent1)
          "e-default" Sample.child_request Sample.db_modes).2
     = None
  /\ (post_register utc_zone no_faults 0 (LocalSession Sample.parent1)
        "e-parents" Sample.blank_child_request Sample.db_modes).2
     = Created (registrationWithCosts (LocalSession Sample.parent1)
                  "e-parents" Sample.blank_child_request
                  (Sample.workshop_with_mode "user")).
Proof.
  split; [|split; [|split]].
  - destruct (register_checks_in_order utc_zone 0
                (LocalSession Sample.parent1) "e-full" Sample.child_request
                Sample.db) as [Hfull _].
    + intros e He. vm_compute in He. injection He as <-. reflexivity.
    + apply (Hfull Sample.workshop_full_late); vm_compute;
        [reflexivity|discriminate].
  - destruct (register_checks_in_order utc_zone 0
                (LocalSession Sample.parent1) "e-default" Sample.self_request
                Sample.db_modes) as [_ Hord].
    + intros e He. vm_compute in He. injection He as <-. reflexivity.
    + destruct (Hord (fixed_zone_fixed 0)) as [Hv _].
      rewrite Hv. vm_compute. reflexivity.
  - destruct (register_checks_in_order utc_zone 0
                (LocalSession Sample.parent1) "e-default"
                Sample.child_request Sample.db_modes) as [_ Hord].
    + intros e He. vm_compute in He. injection He as <-. reflexivity.
    + destruct (Hord (fixed_zone_fixed 0)) as [Hv _].
      rewrite Hv. vm_compute. reflexivity.
  - destruct (register_checks_in_order utc_zone 0
                (LocalSession Sample.parent1) "e-parents"
                Sample.blank_child_request Sample.db_modes) as [_ Hord].
    + intros e He. vm_compute in He. injection He as <-. reflexivity.
    + destruct (Hord (fixed_zone_fixed 0)) as (_ & _ & Hpass).
      destruct Hpass as (e & He & Hanswer); [vm_compute; reflexivity|].
      vm_compute in He. injection He as <-. exact Hanswer.
Defined.

(** ** What an accepted registration writes *)

(** The handler, once the event row is found and the checks are read:
    nothing is written before the checks have passed. *)
Lemma post_register_found (tz : TimeZone) (flt : Faults) (now : Z)
    (user : SessionUser) (evId : string) (body : RegisterBody) (st : Store)
    (e : Event) :
  flt CallGetEvent = false ->
  getEvent st evId = Some e ->
  let child := childId_or_null (body_childId body) in
  let row := registrationWithCosts user evId body e in
  post_register tz flt now user evId body st =
    match check_event tz now e (bool_decide (is_Some child)) with
    | Some answer => (st, answer)
    | None =>
        match check_registrant flt st (session_userId user) evId child with
        | Some answer => (st, answer)
        | None =>
            if flt CallCreateEventRegistration then (st, FailedToRegister)
            else
              match int4 (servicesCost row) with
              | None => (st, FailedToRegister)
              | Some _ =>
                  let st1 := with_new_registration st row in
                  match update_seats_after_insert flt st1 user evId
                          (bool_decide (is_Some child)) with
                  | None => (st1, FailedToRegister)
                  | Some st2 => (st2, Created row)
                  end
              end
        end
    end.
Proof.
  intros Hflt He. unfold post_register, createEventRegistration.
  rewrite Hflt, He. cbn zeta.
  destruct (check_event tz now e _); [reflexivity|].
  destruct (check_registrant flt st _ _ _); [reflexivity|].
  destruct (flt CallCreateEventRegistration); [reflexivity|].
  destruct (int4 _); reflexivity.
Qed.

Lemma check_event_not_created (tz : TimeZone) (now : Z) (e : Event)
    (b : bool) (r : EventRegistration) :
  check_event tz now e b ≠ Some (Created r).
Proof. unfold check_event. repeat case_match; discriminate. Qed.

Lemma check_registrant_not_created (flt : Faults) (st : Store)
    (userId evId : string) (child : option string) (r : EventRegistration) :
  check_registrant flt st userId evId child ≠ Some (Created r).
Proof. unfold check_registrant. repeat case_match; discriminate. Qed.

(** An accepted request: the event exists, every check passed, the row
    was inserted and the seat update ran on the store with the row. *)
Lemma post_register_created (tz : TimeZone) (flt : Faults) (now : Z)
    (user : SessionUser) (evId : string) (body : RegisterBody)
    (st st' : Store) (r : EventRegistration) :
  post_register tz flt now user evId body st = (st', Created r) ->
  exists e,
    getEvent st evId = Some e
    /\ r = registrationWithCosts user evId body e
    /\ check_event tz now e (bool_decide (is_Some (childId r))) = None
    /\ update_seats_after_insert flt (with_new_registration st r) user
         evId (bool_decide (is_Some (childId r))) = Some st'
    /\ check_registrant flt st (session_userId user) evId (childId r) = None
    /\ flt CallGetEvent = false
    /\ flt CallCreateEventRegistration = false
    /\ is_Some (int4 (servicesCost r)).
Proof.
  intros H.
  destruct (flt CallGetEvent) eqn:Hflt.
  { unfold post_register in H. rewrite Hflt in H. discriminate. }
  destruct (getEvent st evId) as [e|] eqn:He.
  2:{ rewrite (register_unknown_event _ _ _ _ _ _ _ Hflt He) in H.
      discriminate. }
  rewrite (post_register_found _ _ _ _ _ _ _ _ Hflt He) in H. cbn zeta in H.
  exists e.
  destruct (check_event tz now e _) as [a|] eqn:Hce.
  { injection H as _ ->. now apply check_event_not_created in Hce. }
  destruct (check_registrant flt st _ _ _) as [a|] eqn:Hcr.
  { injection H as _ ->. now apply check_registrant_not_created in Hcr. }
  destruct (flt CallCreateEventRegistration) eqn:Hfc; [discriminate|].
  destruct (int4 _) as [z|] eqn:Hint; [|discriminate].
  destruct (update_seats_after_insert _ _ _ _ _) as [st2|] eqn:Hup;
    [|discriminate].
  injection H as -> <-. rewrite Hint. repeat split; try assumption. eauto.
Qed.

Lemma counts_toward_seats_iff (r : option string) :
  counts_toward_seats r = true <-> ~ admin_or_staff r.
Proof.
  unfold counts_toward_seats, admin_or_staff. destruct r as [s|].
  - rewrite andb_true_iff, !negb_true_iff, !String.eqb_neq. split.
    + intros [Ha Hs] [[= ->]|[= ->]]; congruence.
    + intros H. split; intros ->; apply H; [left|right]; reflexivity.
  - split; [intros _ [H|H]; discriminate | reflexivity].
Qed.

Lemma updateEventSeats_lookup (st : Store) (evId : string) (d : Z)
    (e : Event) :
  getEvent st evId = Some e ->
  getEvent (updateEventSeats st evId d).1 evId = Some (add_seats d e).
Proof.
  unfold getEvent, updateEventSeats, update_returning. intros ->.
  cbn. apply lookup_insert_eq.
Qed.

(** The seat update, when it succeeds: a child registration, and a
    parent registration by anyone but an administrator or a staff
    member, takes one seat; no other store is produced. *)
Lemma update_seats_after_insert_spec (flt : Faults) (st st2 : Store)
    (user : SessionUser) (evId : string) (isChild : bool) :
  update_seats_after_insert flt st user evId isChild = Some st2 ->
  (isChild = true -> st2 = (updateEventSeats st evId (-1)).1)
  /\ (isChild = false -> ~ admin_or_staff (parent_role st user) ->
      st2 = (updateEventSeats st evId (-1)).1)
  /\ (isChild = false -> admin_or_staff (parent_role st user) -> st2 = st).
Proof.
  unfold update_seats_after_insert, userRole_of, parent_role.
  intros H. repeat split; intros HisChild; subst isChild; try discriminate.
  - destruct (flt CallUpdateEventSeats); congruence.
  - intros Hrole%counts_toward_seats_iff.
    destruct user as [sub|u].
    + destruct (flt CallGetUserByReplitId); [discriminate|].
      rewrite Hrole in H. destruct (flt CallUpdateEventSeats); congruence.
    + rewrite Hrole in H. destruct (flt CallUpdateEventSeats); congruence.
  - intros Hrole.
    assert (Hc : counts_toward_seats
                   match user with
                   | ReplitSession sub => role <$> getUserByReplitId st sub
                   | LocalSession u => Some (role u)
                   end = false).
    { apply not_true_is_false. rewrite counts_toward_seats_iff. tauto. }
    destruct user as [sub|u].
    + destruct (flt CallGetUserByReplitId); [discriminate|].
      rewrite Hc in H. congruence.
    + rewrite Hc in H. congruence.
Qed.

(** C6: after an accepted registration the event has one seat less
    when a child was registered, whatever the parent's role, and when a
    parent registered without a child and is neither administrator nor
    staff; it has the same seats when an administrator or a staff member
    registered without a child. *)
Theorem seats_after_accepted_registration (tz : TimeZone) (flt : Faults)
    (now : Z) (user : SessionUser) (evId : string) (body : RegisterBody)
    (st st' : Store) (r : EventRegistration) (e : Event) :
  post_register tz flt now user evId body st = (st', Created r) ->
  getEvent st evId = Some e ->
  exists e',
    getEvent st' evId = Some e'
    /\ (is_Some (childId r) -> remainingSeats e' = remainingSeats e - 1)
    /\ (childId r = None -> ~ admin_or_staff (parent_role st user) ->
        remainingSeats e' = remainingSeats e - 1)
    /\ (childId r = None -> admin_or_staff (parent_role st user) ->
        remainingSeats e' = remainingSeats e).
Proof.
  intros Hpost He.
  apply post_register_created in Hpost as (e0 & He0 & Hr & _ & Hup & _).
  rewrite He in He0. injection He0 as <-.
  apply update_seats_after_insert_spec in Hup as (Hchild & Hparent & Hstaff).
  set (st1 := with_new_registration st r) in *.
  assert (He1 : getEvent st1 evId = Some e) by exact He.
  assert (Hrole : parent_role st1 user = parent_role st user) by reflexivity.
  rewrite Hrole in *.
  destruct (childId r) as [c|] eqn:Hc.
  - exists (add_seats (-1) e).
    rewrite Hchild by (apply bool_decide_eq_true_2; eauto).
    split; [now apply updateEventSeats_lookup|].
    split; [intros _; cbn; lia|]. split; discriminate.
  - assert (Hb : bool_decide (is_Some (@None string)) = false).
    { apply bool_decide_eq_false_2. intros [? [=]]. }
    destruct (counts_toward_seats (parent_role st user)) eqn:Hcount.
    + assert (Hnot : ~ admin_or_staff (parent_role st user))
        by now apply counts_toward_seats_iff.
      exists (add_seats (-1) e). rewrite (Hparent Hb Hnot).
      split; [now apply updateEventSeats_lookup|].
      split; [intros [? [=]]|]. split.
      * intros _ _. cbn. lia.
      * intros _ Hrole'. contradiction.
    + assert (Hyes : admin_or_staff (parent_role st user)).
      { destruct (parent_role st user) as [s|]; [|discriminate].
        unfold counts_toward_seats in Hcount. unfold admin_or_staff.
        destruct (String.eqb_spec s "admin") as [->|]; [now left|].
        destruct (String.eqb_spec s "staff") as [->|]; [now right|].
        discriminate. }
      exists e. rewrite (Hstaff Hb Hyes).
      split; [exact He1|].
      split; [intros [? [=]]|]. split.
      * intros _ Hnot. contradiction.
      * reflexivity.
Qed.

Lemma seats_after_accepted_registration_witness :
  (remainingSeats <$> getEvent Sample.db "e1" = Some 5)
  /\ exists e',
       getEvent Sample.db_registered "e1" = Some e'
       /\ remainingSeats e' = 4.
Proof.
  split; [reflexivity|].
  set (st1 := (post_register utc_zone no_faults 0
                 (LocalSession Sample.parent1) "e1" Sample.child_request
                 Sample.db).1).
  destruct (seats_after_accepted_registration utc_zone no_faults 0
              (LocalSession Sample.admin1) "e1" Sample.self_request
              st1 Sample.db_registered Sample.admin_self_row
              (add_seats (-1) Sample.workshop))
    as (e' & He' & _ & _ & Hsame).
  - vm_compute. reflexivity.
  - vm_compute. reflexivity.
  - exists e'. split; [exact He'|].
    rewrite Hsame; [reflexivity|reflexivity|left; reflexivity].
Defined.

(** ** Rejections, failures and side effects *)





(** ** One request at a time, and requests that overlap *)

Import Interleaving.

#[local] Ltac resume_handler :=
  try unfold after_insert;
  cbn [resume resume_repeatedly req_flt req_now req_user req_evId req_body].

(** A registration request that no other request interrupts does what
    [post_register] says. *)
Lemma run_alone_post_register (tz : TimeZone) (rq : Request) (st : Store) :
  run_alone tz rq st =
  let result :=
    post_register tz (req_flt rq) (req_now rq) (req_user rq) (req_evId rq)
      (req_body rq) st in
  (result.1, Answered result.2).
Proof.
  destruct rq as [flt now user evId body].
  unfold run_alone, post_register, check_registrant,
    update_seats_after_insert, userRole_of.
  resume_handler.
  destruct (flt CallGetEvent); [reflexivity|].
  destruct (getEvent st evId) as [event|]; [|reflexivity].
  destruct (check_event tz now event _); [reflexivity|].
  destruct (childId_or_null (body_childId body)) as [c|] eqn:Hchild.
  - assert (Hc : bool_decide (is_Some (Some c)) = true)
      by (apply bool_decide_eq_true_2; eauto).
    rewrite Hc. resume_handler.
    destruct (flt CallIsChildRegisteredForEvent); [reflexivity|].
    destruct (isChildRegisteredForEvent st c evId); [reflexivity|].
    resume_handler.
    destruct (flt CallGetChild); [reflexivity|].
    destruct (getChild st c) as [ch|]; [|reflexivity].
    destruct (bool_decide (child_parentId ch = session_userId user));
      [|reflexivity].
    resume_handler.
    destruct (flt CallCreateEventRegistration); [reflexivity|].
    destruct (createEventRegistration st _) as [[st1 registration]|];
      [|reflexivity].
    resume_handler. rewrite ?Hchild, Hc. resume_handler.
    destruct (flt CallUpdateEventSeats); reflexivity.
  - assert (Hc : bool_decide (is_Some (@None string)) = false)
      by (apply bool_decide_eq_false_2; intros [? [=]]).
    rewrite Hc. resume_handler.
    destruct (flt CallGetEventRegistrationsByParent); [reflexivity|].
    destruct (existsb _ (getEventRegistrationsByParent st _)); [reflexivity|].
    resume_handler.
    destruct (flt CallCreateEventRegistration); [reflexivity|].
    destruct (createEventRegistration st _) as [[st1 registration]|];
      [|reflexivity].
    resume_handler. rewrite ?Hchild, Hc. destruct user as [sub|u].
    + resume_handler.
      destruct (flt CallGetUserByReplitId); [reflexivity|].
      destruct (counts_toward_seats _); [|reflexivity].
      resume_handler.
      destruct (flt CallUpdateEventSeats); reflexivity.
    + destruct (counts_toward_seats _); [|reflexivity].
      resume_handler.
      destruct (flt CallUpdateEventSeats); reflexivity.
Qed.

(** Two requests of which one runs to its answer before the other
    starts: the second finds no seat. *)
Example last_seat_one_after_the_other :
  let s := interleave utc_zone
             [Sample.last_seat_request; Sample.last_seat_request]
             Sample.one_after_the_other Sample.db in
  remainingSeats <$> getEvent s.1 "e-now" = Some 0
  /\ length (eventRegistrations s.1) = 1%nat
  /\ s.2 = [Answered
              (Created (registrationWithCosts (LocalSession Sample.parent1)
                          "e-now" Sample.child_request Sample.starting_now));
            Answered NoSeatsAvailable].
Proof. repeat split; vm_compute; reflexivity. Qed.

(** The same two requests taking turns at every storage call: both read
    one seat and no row for the child, both insert, both take a seat. *)
Example last_seat_turn_by_turn :
  let s := interleave utc_zone
             [Sample.last_seat_request; Sample.last_seat_request]
             Sample.turn_by_turn Sample.db in
  remainingSeats <$> getEvent s.1 "e-now" = Some (-1)
  /\ length (eventRegistrations s.1) = 2%nat
  /\ forall p, p ∈ s.2 ->
       p = Answered
             (Created (registrationWithCosts (LocalSession Sample.parent1)
                         "e-now" Sample.child_request Sample.starting_now)).
Proof.
  split; [vm_compute; reflexivity|]. split; [vm_compute; reflexivity|].
  intros p Hp. apply list_elem_of_In in Hp. vm_compute in Hp.
  destruct Hp as [<- | [<- | []]]; reflexivity.
Qed.

(** ** The seat invariant *)

Lemma update_returning_invariant (f : Event -> Event) (evId : string)
    (st : Store) :
  seats_invariant st ->
  (forall e, events st !! evId = Some e -> seats_in_bounds (f e)) ->
  seats_invariant (update_returning f evId st).1.
Proof.
  unfold seats_invariant, update_returning. intros Hinv Hf.
  destruct (events st !! evId) as [e|] eqn:He; [|exact Hinv].
  cbn. apply map_Forall_insert_2; [now apply Hf | exact Hinv].
Qed.

(** A passed [check_event] means there was a seat left. *)
Lemma check_event_passed_seats (tz : TimeZone) (now : Z) (e : Event)
    (b : bool) :
  check_event tz now e b = None -> 0 < remainingSeats e.
Proof.
  unfold check_event.
  destruct (Z.leb_spec (remainingSeats e) 0); [discriminate|trivial].
Qed.

(** The events after a registration request: untouched, or one seat
    taken from an event that had one. *)
Lemma post_register_events (tz : TimeZone) (flt : Faults) (now : Z)
    (user : SessionUser) (evId : string) (body : RegisterBody) (st : Store) :
  events (post_register tz flt now user evId body st).1 = events st
  \/ exists e,
       events st !! evId = Some e
       /\ 0 < remainingSeats e
       /\ events (post_register tz flt now user evId body st).1
          = <[evId := add_seats (-1) e]> (events st).
Proof.
  destruct (flt CallGetEvent) eqn:Hflt.
  { unfold post_register. rewrite Hflt. now left. }
  destruct (getEvent st evId) as [e|] eqn:He.
  2:{ rewrite (register_unknown_event _ _ _ _ _ _ _ Hflt He). now left. }
  rewrite (post_register_found _ _ _ _ _ _ _ _ Hflt He). cbn zeta.
  destruct (check_event tz now e _) eqn:Hce; [now left|].
  apply check_event_passed_seats in Hce.
  destruct (check_registrant flt st _ _ _); [now left|].
  destruct (flt CallCreateEventRegistration); [now left|].
  destruct (int4 _); [|now left].
  unfold update_seats_after_insert.
  assert (Hupd : events (updateEventSeats
                   (with_new_registration st
                      (registrationWithCosts user evId body e))
                   evId (-1)).1
                 = <[evId := add_seats (-1) e]> (events st)).
  { unfold updateEventSeats, update_returning. cbn.
    unfold getEvent in He. rewrite He. reflexivity. }
  repeat case_match; simplify_eq; cbn [fst];
    solve [now left | right; exists e; repeat split; assumption].
Qed.

(** The store after an edit: as before, or with the row rewritten under
    the key of the request or under the key the body carries. *)
Lemma put_event_store (flt : Faults) (evId : string) (b : EventBody)
    (staffIds : option (list string)) (st : Store) :
  (put_event flt evId b staffIds st).1 = st
  \/ exists e,
       events st !! evId = Some e
       /\ rekey_refused st evId (default evId (b_id b)) = false
       /\ (put_event flt evId b staffIds st).1
          = with_events st
              (<[default evId (b_id b) := set_fields (processedEventData b) e]>
                 (delete evId (events st))).
Proof.
  unfold put_event, updateEvent.
  destruct (flt CallUpdateEvent); [now left|].
  destruct (events st !! evId) as [e|]; [|now left].
  cbn [p_id processedEventData].
  destruct (rekey_refused st evId _) eqn:Hkey; [now left|].
  right. exists e. split; [reflexivity|]. split; [reflexivity|].
  now destruct (supervisors_update_throws flt evId b staffIds).
Qed.

(** The store after an event creation: as before, or with the new
    event, and with the administrator's row when there is one. *)
Lemma post_admin_event_store (throws : CreateCall -> bool)
    (user : SessionUser) (newId : string) (b : EventBody)
    (staffIds : option (list string)) (db : Db) :
  let st := store db in
  let st' := store (post_admin_event throws user newId b staffIds db).1 in
  st' = st
  \/ (events st !! newId = None
      /\ events st' = <[newId := inserted_event (eventData_of b)]> (events st)
      /\ attendee st' = attendee st
      /\ users st' = users st
      /\ (eventRegistrations st' = eventRegistrations st
          \/ eventRegistrations st'
             = eventRegistrations st
               ++ [auto_registration newId (session_userId user)])).
Proof.
  cbn zeta. unfold post_admin_event, createEvent.
  destruct (throws CallInsertEvent); [now left|]. cbn [orb].
  destruct (decide (is_Some (events (store db) !! newId))) as [Htaken|Hfree].
  { rewrite bool_decide_eq_true_2 by assumption. now left. }
  rewrite bool_decide_eq_false_2 by assumption.
  assert (Hnone : events (store db) !! newId = None).
  { destruct (events (store db) !! newId); [exfalso; eauto|reflexivity]. }
  right. split; [exact Hnone|].
  unfold createEventRegistration. cbn [auto_registration servicesCost].
  change (int4 zero) with (Some 0).
  repeat case_match; simplify_eq; cbn; auto.
Qed.

(** What an event creation does to the store does not depend on the
    rows of [event_supervisors]. *)
Lemma post_admin_event_any_supervisors (throws : CreateCall -> bool)
    (user : SessionUser) (newId : string) (b : EventBody)
    (staffIds : option (list string)) (st : Store)
    (rows : list EventSupervisor) :
  store (post_admin_event throws user newId b staffIds
           {| store := st; eventSupervisors := rows |}).1
  = store (post_admin_event throws user newId b staffIds
             {| store := st; eventSupervisors := [] |}).1.
Proof.
  unfold post_admin_event, createEvent. cbn [store eventSupervisors].
  destruct (throws CallInsertEvent || _); [reflexivity|].
  destruct staffIds as [[|s l]|]; cbn [store eventSupervisors].
  - reflexivity.
  - destruct (throws CallInsertSupervisors); [reflexivity|].
    cbn [store eventSupervisors].
    destruct (_ && _); [|reflexivity].
    now destruct (createEventRegistration _ _) as [[st2 r]|].
  - reflexivity.
Qed.

Lemma step_invariant (st : Store) (op : Operation) :
  seats_invariant st -> writes_in_bounds st op ->
  seats_invariant (step st op).
Proof.
  intros Hinv Hop.
  destruct op as [tz flt now user evId body | throws user newId b staffIds
    | flt evId b staffIds | flt evId s | flt evId | flt evId | evId d];
    cbn [step].
  - destruct (post_register_events tz flt now user evId body st)
      as [Hsame | (e & He & Hpos & Hev)]; unfold seats_invariant in *.
    + now rewrite Hsame.
    + rewrite Hev. apply map_Forall_insert_2; [|exact Hinv].
      specialize (Hinv evId e He). unfold seats_in_bounds in *. cbn. lia.
  - destruct (post_admin_event_store throws user newId b staffIds
                {| store := st; eventSupervisors := [] |})
      as [Hsame | (_ & Hev & _)]; cbn [store] in *.
    + now rewrite Hsame.
    + unfold seats_invariant. rewrite Hev.
      apply map_Forall_insert_2; [exact Hop | exact Hinv].
  - destruct (put_event_store flt evId b staffIds st)
      as [Hsame | (e & _ & _ & Hst')].
    + now rewrite Hsame.
    + rewrite Hst'. unfold seats_invariant. cbn [events with_events].
      apply map_Forall_insert_2; [exact Hop|].
      now apply map_Forall_delete.
  - unfold put_event_status, updateEventStatus.
    destruct (flt CallUpdateEventStatus); [exact Hinv|].
    pose proof (update_returning_invariant (set_status s) evId st Hinv) as H.
    destruct (update_returning _ _ _) as [st' [e'|]]; apply H;
      intros e He; exact (Hinv evId e He).
  - unfold delete_event, softDeleteEvent.
    destruct (flt CallSoftDeleteEvent); [exact Hinv|].
    pose proof (update_returning_invariant (set_deleted true) evId st Hinv)
      as H.
    destruct (update_returning _ _ _) as [st' o].
    destruct (bool_decide (is_Some o)); apply H;
      intros e He; exact (Hinv evId e He).
  - unfold restore_event, restoreEvent.
    destruct (flt CallRestoreEvent); [exact Hinv|].
    pose proof (update_returning_invariant (set_deleted false) evId st Hinv)
      as H.
    destruct (update_returning _ _ _) as [st' o].
    destruct (bool_decide (is_Some o)); apply H;
      intros e He; exact (Hinv evId e He).
  - unfold updateEventSeats. apply update_returning_invariant; [exact Hinv|].
    intros e He. exact (Hop e He).
Qed.

Lemma sample_db_invariant : seats_invariant Sample.db.
Proof.
  unfold seats_invariant, Sample.db. cbn [events].
  repeat (apply map_Forall_insert_2;
          [unfold seats_in_bounds; cbn; lia|]).
  apply map_Forall_empty.
Qed.

(** C1, as the claim states it, fails.  The administrative edit and the
    event creation store the seat counts they are given, and the seat
    delta is added unchecked: an edit of the sample event to ten
    remaining of five seats, a delta of minus six on its five seats, and
    a new event with ten remaining of five seats all leave the bounds.
    And registrations that overlap break the lower bound by themselves:
    of two requests for the last seat of an event that take turns at
    their storage calls, both are accepted, and the event is left with
    minus one seat. *)
Lemma unchecked_writes_and_overlap_break_bounds :
  seats_invariant Sample.db
  /\ ~ seats_invariant
        (run [OpPutEvent no_faults "e1" Sample.overbooked_edit None]
           Sample.db)
  /\ ~ seats_invariant (run [OpUpdateEventSeats "e1" (-6)] Sample.db)
  /\ ~ seats_invariant
        (run [OpCreateEvent (fun _ => false) (LocalSession Sample.admin1)
                "e-new" Sample.overbooked_edit None] Sample.db)
  /\ (let s := interleave utc_zone
                 [Sample.last_seat_request; Sample.last_seat_request]
                 Sample.turn_by_turn Sample.db in
      http_status <$> ((fun p => match p with
                                 | Answered a => a
                                 | _ => FailedToRegister
                                 end) <$> s.2) = [201; 201]
      /\ remainingSeats <$> getEvent s.1 "e-now" = Some (-1)
      /\ ~ seats_invariant s.1).
Proof.
  split; [exact sample_db_invariant|].
  split; [|split; [|split; [|split; [|split]]]].
  - intros Hinv.
    eassert (Hrow : events (run [OpPutEvent no_faults "e1"
                                   Sample.overbooked_edit None] Sample.db)
                    !! "e1"%string = Some _) by (vm_compute; reflexivity).
    apply Hinv in Hrow. unfold seats_in_bounds in Hrow. cbn in Hrow. lia.
  - intros Hinv.
    eassert (Hrow : events (run [OpUpdateEventSeats "e1" (-6)] Sample.db)
                    !! "e1"%string = Some _) by (vm_compute; reflexivity).
    apply Hinv in Hrow. unfold seats_in_bounds in Hrow. cbn in Hrow. lia.
  - intros Hinv.
    eassert (Hrow : events
                      (run [OpCreateEvent (fun _ => false)
                              (LocalSession Sample.admin1) "e-new"
                              Sample.overbooked_edit None] Sample.db)
                    !! "e-new"%string = Some _) by (vm_compute; reflexivity).
    apply Hinv in Hrow. unfold seats_in_bounds in Hrow. cbn in Hrow. lia.
  - vm_compute. reflexivity.
  - vm_compute. reflexivity.
  - intros Hinv.
    eassert (Hrow : events
                      (interleave utc_zone
                         [Sample.last_seat_request; Sample.last_seat_request]
                         Sample.turn_by_turn Sample.db).1
                    !! "e-now"%string = Some _) by (vm_compute; reflexivity).
    apply Hinv in Hrow. unfold seats_in_bounds in Hrow. cbn in Hrow. lia.
Qed.

(** C1, amended: operations carried out one at a time, each from its
    first storage call to its answer before the next one starts, keep
    [0 <= remainingSeats <= maxSeats] for every event: registrations,
    status updates, deletions and restorations always, and event
    creations, edits and seat deltas when the seat counts they write are
    within bounds.  (Registration requests that overlap are not
    covered.) *)
Theorem seats_invariant_preserved (ops : list Operation) (st : Store) :
  seats_invariant st ->
  all_writes_in_bounds ops st ->
  seats_invariant (run ops st).
Proof.
  revert st. induction ops as [|op ops IH]; intros st Hinv Hops.
  - exact Hinv.
  - destruct Hops as [Hop Hrest]. cbn [run fold_left].
    apply IH; [now apply step_invariant | exact Hrest].
Qed.

Lemma seats_invariant_preserved_witness :
  seats_invariant
    (run [OpRegister utc_zone no_faults 0 (LocalSession Sample.parent1) "e1"
            Sample.child_request;
          OpUpdateEventSeats "e1" (-4);
          OpRegister utc_zone no_faults 0 (LocalSession Sample.parent1) "e1"
            Sample.self_request;
          OpRegister utc_zone no_faults 0 (LocalSession Sample.admin1) "e1"
            Sample.child_request;
          OpCreateEvent Sample2.never_throws (LocalSession Sample.admin1)
            "e-new" Sample2.new_event_body (Some ["a1"%string]);
          OpPutEvent no_faults "e-new" Sample2.new_event_body None]
       Sample.db).
Proof.
  apply seats_invariant_preserved.
  - exact sample_db_invariant.
  - cbn [all_writes_in_bounds writes_in_bounds].
    split; [exact I|]. split.
    + intros e He. vm_compute in He. injection He as <-.
      unfold seats_in_bounds. cbn. lia.
    + split; [exact I|]. split; [exact I|].
      split; [cbn; lia|]. split; [cbn; lia|exact I].
Defined.

(** ** Numbers *)

Lemma emin_value : emin prec emax = -1074.
Proof. reflexivity. Qed.




(** The exponent after a shift to the format's exponent is never below
    [emin]. *)
Lemma shr_fexp_exponent (m e : Z) (l : location) :
  emin prec emax <= (shr_fexp prec emax m e l).2.
Proof.
  unfold shr_fexp, shr, fexp. rewrite emin_value.
  destruct (Z.max _ _ - e) as [|p|p] eqn:Hn; cbn [snd]; lia.
Qed.



(** Rounding gives a number whose exponent is not below [emin]. *)
Lemma binary_round_aux_above_emin (sx : bool) (mx ex : Z) (lx : location) :
  above_emin (binary_round_aux prec emax sx mx ex lx).
Proof.
  unfold binary_round_aux.
  destruct (shr_fexp prec emax mx ex lx) as [mrs' e'].
  pose proof (shr_fexp_exponent
                (round_nearest_even (shr_m mrs') (loc_of_shr_record mrs'))
                e' loc_Exact) as He.
  destruct (shr_fexp prec emax _ e' loc_Exact) as [mrs'' e''].
  cbn [snd] in He.
  destruct (shr_m mrs''); cbn; try exact I.
  destruct (e'' <=? emax - prec); [exact He|exact I].
Qed.



Lemma binary_round_above_emin (sx : bool) (m : positive) (e : Z) :
  above_emin (binary_round prec emax sx m e).
Proof.
  unfold binary_round. destruct (shl_align _ _ _).
  apply binary_round_aux_above_emin.
Qed.


Lemma binary_normalize_above_emin (m e : Z) (szero : bool) :
  above_emin (binary_normalize prec emax m e szero).
Proof.
  unfold binary_normalize. destruct m; [exact I| |];
    apply binary_round_above_emin.
Qed.





Lemma mul_above_emin (x y : number) : above_emin (mul x y).
Proof.
  unfold mul, SFmul.
  destruct x as [sx|sx| |sx mx ex], y as [sy|sy| |sy my ey]; try exact I.
  apply binary_round_aux_above_emin.
Qed.

Lemma Math_round_above_emin (x : number) : above_emin (Math_round x).
Proof.
  unfold Math_round. destruct x as [s|s| |s m e]; try exact I.
  destruct (Z.leb_spec 0 e) as [He|He].
  - cbn. rewrite emin_value. lia.
  - apply binary_normalize_above_emin.
Qed.

Lemma service_cents_above_emin (o : option ExtraService) :
  above_emin (service_cents o).
Proof.
  destruct o as [s|]; [apply Math_round_above_emin|exact I].
Qed.

(** ** Costs *)









(** The services priced 10.00 and 5.00, both selected, cost 1500
    cents; an index out of range adds nothing.  Cents are rounded to
    the nearest whole number, a half upwards: a price of 1.005 is, in
    binary, just below it and makes 100 cents, 0.125 makes 13 cents and
    -0.125 makes -12. *)
Example services_cost_examples :
  to_Z (servicesCost_of Sample.workshop [0; 1]) = Some 1500
  /\ servicesCost_of Sample.workshop [0; 1; 7; -1]
     = servicesCost_of Sample.workshop [0; 1]
  /\ to_Z (cents (mkExtraService (div (of_Z 1005) (of_Z 1000)))) = Some 100
  /\ to_Z (cents (mkExtraService (div (of_Z 1) (of_Z 8)))) = Some 13
  /\ to_Z (cents (mkExtraService (div (of_Z (-1)) (of_Z 8)))) = Some (-12).
Proof. repeat split; vm_compute; reflexivity. Qed.

(** A selection in range is no [int4] value when it costs too much: the
    service priced 30 000 000 makes 3 000 000 000 cents, the insertion
    is refused, and the request is answered 500 with nothing written. *)
Example services_cost_overflow :
  to_Z (servicesCost_of Sample.tasting [3]) = Some 3000000000
  /\ int4 (servicesCost_of Sample.tasting [3]) = None
  /\ post_register utc_zone no_faults 0 (LocalSession Sample.parent1)
       "e-tasting" Sample.tasting_request_costly Sample.db_modes
     = (Sample.db_modes, FailedToRegister).
Proof. repeat split; vm_compute; reflexivity. Qed.

(** * Further properties of the code *)

Import Users Auth Children Invariants.

(** ** Status and admission agree *)

Lemma check_registrant_answers (flt : Faults) (st : Store)
    (userId evId : string) (child : option string) (a : RegisterResponse) :
  check_registrant flt st userId evId child = Some a ->
  a = FailedToRegister \/ a = ChildAlreadyRegistered \/ a = ChildNotFound
  \/ a = ParentAlreadyRegistered.
Proof.
  unfold check_registrant. intros H.
  repeat case_match; simplify_eq; auto.
Qed.

(** What the handler answers on the seats and the deadline, when no
    storage call throws, on a server whose zone has a fixed offset. *)
Lemma register_seats_deadline (tz : TimeZone) (now : Z) (user : SessionUser)
    (evId : string) (body : RegisterBody) (st : Store) (e : Event) :
  fixed_offset tz ->
  getEvent st evId = Some e ->
  let answer := (post_register tz no_faults now user evId body st).2 in
  let cutoff := startTime e - cutoffHours e * msPerHour in
  (remainingSeats e <= 0 -> answer = NoSeatsAvailable)
  /\ (0 < remainingSeats e -> cutoff < now -> answer = DeadlinePassed)
  /\ (0 < remainingSeats e -> now <= cutoff ->
      answer ≠ NoSeatsAvailable /\ answer ≠ DeadlinePassed).
Proof.
  intros Htz He answer cutoff. subst answer cutoff.
  rewrite (post_register_found _ _ _ _ _ _ _ _ eq_refl He). cbn zeta.
  set (child := childId_or_null (body_childId body)).
  unfold check_event. rewrite register_cutoffTime_eq by assumption.
  split; [|split].
  - intros Hfull. destruct (Z.leb_spec (remainingSeats e) 0); [reflexivity|lia].
  - intros Hseats Hlate.
    destruct (Z.leb_spec (remainingSeats e) 0); [lia|].
    destruct (Z.ltb_spec (startTime e - cutoffHours e * msPerHour) now);
      [reflexivity|lia].
  - intros Hseats Hearly.
    destruct (Z.leb_spec (remainingSeats e) 0); [lia|].
    destruct (Z.ltb_spec (startTime e - cutoffHours e * msPerHour) now);
      [lia|].
    pose proof (check_registrant_no_faults st (session_userId user) evId child)
      as Hnf.
    destruct (update_seats_no_faults
                (with_new_registration st
                   (registrationWithCosts user evId body e))
                user evId (bool_decide (is_Some child))) as [st2 Hst2].
    cbn [no_faults]. rewrite Hst2.
    destruct (_ && negb _); [split; discriminate|].
    destruct (_ && _); [split; discriminate|].
    destruct (check_registrant _ _ _ _ _) as [a|] eqn:Hcr.
    + apply check_registrant_answers in Hcr.
      cbn [snd]. destruct Hcr as [-> | [-> | [-> | ->]]]; split; discriminate.
    + destruct (int4 _); split; discriminate.
Qed.

(** X1: on a server whose time zone has a fixed offset from UTC, and for
    an event with a cutoff period that is not negative, the calculated
    status tells what the registration handler does with the seats and
    the deadline: a [full] event is rejected for the seats, a
    [registration_closed] one for the deadline, a [past] one for either,
    and an event is [open] exactly when neither check rejects. *)
Theorem status_agrees_with_registration (tz : TimeZone) (now : Z)
    (user : SessionUser) (evId : string) (body : RegisterBody) (st : Store)
    (e : Event) :
  fixed_offset tz ->
  getEvent st evId = Some e ->
  0 <= cutoffHours e ->
  let answer := (post_register tz no_faults now user evId body st).2 in
  (calculateEventStatus now e = full -> answer = NoSeatsAvailable)
  /\ (calculateEventStatus now e = registration_closed ->
      answer = DeadlinePassed)
  /\ (calculateEventStatus now e = past ->
      answer = NoSeatsAvailable \/ answer = DeadlinePassed)
  /\ (calculateEventStatus now e = open <->
      answer ≠ NoSeatsAvailable /\ answer ≠ DeadlinePassed).
Proof.
  intros Htz He Hcut answer.
  destruct (register_seats_deadline tz now user evId body st e Htz He)
    as (Hfull & Hlate & Hok).
  fold answer in Hfull, Hlate, Hok.
  unfold calculateEventStatus. unfold msPerHour in *.
  replace (cutoffHours e * 60 * 60 * 1000)
    with (cutoffHours e * (60 * 60 * 1000)) by lia.
  destruct (Z.ltb_spec (startTime e) now) as [Hpast|Hpast];
    destruct (Z.leb_spec (remainingSeats e) 0) as [Hseats|Hseats];
    destruct (Z.ltb_spec (startTime e - cutoffHours e * (60 * 60 * 1000)) now)
      as [Hclosed|Hclosed];
    (split; [intros Hs|split; [intros Hs|split; [intros Hs|split;
       [intros Hs|intros [Hs1 Hs2]]]]]);
    try discriminate Hs;
    try (specialize (Hfull Hseats));
    try (specialize (Hlate Hseats Hclosed));
    try (specialize (Hok Hseats Hclosed));
    try lia; try congruence; try tauto; auto.
Qed.

Lemma status_agrees_with_registration_witness :
  calculateEventStatus 0 Sample.workshop_full_late = full
  /\ (post_register utc_zone no_faults 0 (LocalSession Sample.parent1)
        "e-full" Sample.child_request Sample.db).2 = NoSeatsAvailable.
Proof.
  split; [reflexivity|].
  destruct (status_agrees_with_registration utc_zone 0
              (LocalSession Sample.parent1) "e-full" Sample.child_request
              Sample.db Sample.workshop_full_late) as (Hfull & _).
  - apply fixed_zone_fixed.
  - vm_compute. reflexivity.
  - vm_compute. discriminate.
  - apply Hfull. reflexivity.
Defined.

(** Where the clocks are put forward between the cutoff and the start,
    the two disagree: half an hour after the cutoff by the event's
    hours the status is [registration_closed] and the handler
    accepts. *)
Example status_and_registration_summer_time :
  let now := Sample.hours 36 + Sample.hours 1 / 2 in
  calculateEventStatus now Sample.workshop = registration_closed
  /\ http_status
       (post_register Sample.summer_time_zone no_faults now
          (LocalSession Sample.parent1) "e1" Sample.child_request
          Sample.db).2 = 201.
Proof. split; vm_compute; reflexivity. Qed.

(** ** The event listings *)

#[local] Instance later_first_trans : Transitive later_first.
Proof. intros a b c. unfold later_first. lia. Qed.

#[local] Instance later_first_total : Total later_first.
Proof. intros a b. unfold later_first. lia. Qed.

#[local] Instance by_startTime_trans : Transitive by_startTime.
Proof. intros a b c. unfold by_startTime. lia. Qed.

#[local] Instance by_startTime_total : Total by_startTime.
Proof. intros a b. unfold by_startTime. lia. Qed.

Lemma StronglySorted_filter {A} (R : relation A) (P : A -> Prop)
    `{!forall x, Decision (P x)} (l : list A) :
  StronglySorted R l -> StronglySorted R (filter P l).
Proof.
  induction 1 as [|x l Hl IH Hx]; [constructor|].
  rewrite filter_cons. destruct (decide (P x)); [|exact IH].
  constructor; [exact IH|].
  apply Forall_forall. intros y [_ Hy]%list_elem_of_filter.
  rewrite Forall_forall in Hx. now apply Hx.
Qed.

(** The rows of [getAllEvents]: each stored event that is not deleted
    (or each stored event, when deleted ones are asked for), with its
    status calculated. *)
Lemma getAllEvents_elem (st : Store) (now : Z) (includeDeleted : bool)
    (row : string * Event) :
  row ∈ getAllEvents st now includeDeleted <->
  exists e,
    events st !! row.1 = Some e
    /\ (includeDeleted = false -> deleted e = false)
    /\ row.2 = set_status (status_string (calculateEventStatus now e)) e.
Proof.
  unfold getAllEvents. rewrite list_elem_of_fmap. split.
  - intros ([id e] & -> & Hin). exists e. cbn.
    destruct includeDeleted.
    + rewrite merge_sort_Permutation in Hin.
      apply elem_of_map_to_list in Hin. repeat split; [exact Hin|discriminate].
    + apply list_elem_of_filter in Hin as [Hdel Hin].
      rewrite merge_sort_Permutation in Hin.
      apply elem_of_map_to_list in Hin. repeat split; assumption || auto.
  - intros (e & He & Hdel & Hrow). exists (row.1, e). split.
    + destruct row as [id e']. cbn in *. now subst e'.
    + destruct includeDeleted.
      * rewrite merge_sort_Permutation. now apply elem_of_map_to_list.
      * apply list_elem_of_filter. split; [now apply Hdel|].
        rewrite merge_sort_Permutation. now apply elem_of_map_to_list.
Qed.

Lemma status_string_inj (a b : EventStatus) :
  status_string a = status_string b -> a = b.
Proof. destruct a, b; (reflexivity || discriminate). Qed.

(** X2: the listing for ordinary users shows exactly the stored events
    that are not deleted and have not started before [now], each with
    its calculated status, which is [open], [registration_closed] or
    [full]. *)
Theorem events_for_user_listing (st : Store) (now : Z) (id : string)
    (row : Event) :
  (id, row) ∈ getEventsForUser st now <->
  exists e,
    events st !! id = Some e
    /\ deleted e = false
    /\ now <= startTime e
    /\ row = set_status (status_string (calculateEventStatus now e)) e
    /\ (calculateEventStatus now e = open
        \/ calculateEventStatus now e = registration_closed
        \/ calculateEventStatus now e = full).
Proof.
  unfold getEventsForUser. rewrite list_elem_of_filter, getAllEvents_elem.
  cbn [fst snd]. split.
  - intros ([Hpast Hedit] & e & He & Hdel & ->). exists e.
    cbn [status set_status] in Hpast, Hedit.
    assert (Hnotpast : calculateEventStatus now e ≠ past)
      by (intros Heq; rewrite Heq in Hpast; now apply Hpast).
    repeat split; try assumption; [now apply Hdel| |].
    + unfold calculateEventStatus in Hnotpast.
      destruct (Z.ltb_spec (startTime e) now); [congruence|assumption].
    + pose proof (calculateEventStatus_never_editing now e).
      destruct (calculateEventStatus now e); auto; congruence.
  - intros (e & He & Hdel & Hstart & -> & Hstatus). split.
    + cbn [status set_status].
      destruct Hstatus as [-> | [-> | ->]]; split; discriminate.
    + exists e. repeat split; assumption || auto.
Qed.

Lemma events_for_user_listing_witness :
  ("e1"%string, Sample.workshop) ∈ getEventsForUser Sample.db 0.
Proof.
  apply events_for_user_listing. exists Sample.workshop.
  repeat split; try reflexivity.
  - vm_compute. discriminate.
  - left. reflexivity.
Defined.

(** X3: the administrator's listing shows every stored event exactly
    once, and both it and the listing without deleted events are in
    order of start time, latest first. *)
Theorem event_listings_ordered (st : Store) (now : Z) :
  (getAllEventsForAdmin st now).*1 ≡ₚ (map_to_list (events st)).*1
  /\ NoDup (getAllEventsForAdmin st now).*1
  /\ length (getAllEventsForAdmin st now) = size (events st)
  /\ forall includeDeleted,
       StronglySorted later_first (getAllEvents st now includeDeleted).
Proof.
  assert (Hids : (getAllEventsForAdmin st now).*1
                 ≡ₚ (map_to_list (events st)).*1).
  { unfold getAllEventsForAdmin, getAllEvents.
    rewrite <- list_fmap_compose.
    rewrite (list_fmap_ext (fst ∘ with_calculated_status now) fst
               (merge_sort later_first (map_to_list (events st)))
               (fun _ _ _ => eq_refl)).
    now rewrite merge_sort_Permutation. }
  split; [exact Hids|]. split; [|split].
  - rewrite Hids. apply NoDup_fst_map_to_list.
  - rewrite <- length_map_to_list.
    rewrite <- (length_fmap fst (getAllEventsForAdmin st now)).
    rewrite <- (length_fmap fst (map_to_list (events st))).
    now apply Permutation_length.
  - intros includeDeleted. unfold getAllEvents.
    apply (StronglySorted_fmap _ later_first later_first);
      [intros [] []; exact id|].
    pose proof (StronglySorted_merge_sort later_first
                  (map_to_list (events st))) as Hsorted.
    destruct includeDeleted; [exact Hsorted|].
    now apply StronglySorted_filter.
Qed.

(** ** What a registration request can change *)

(** The store after a request: as before, or with the new row, or with
    the new row and one seat less; the row is written only after every
    check has passed. *)
Lemma post_register_outcome (tz : TimeZone) (flt : Faults) (now : Z)
    (user : SessionUser) (evId : string) (body : RegisterBody) (st : Store) :
  let st' := (post_register tz flt now user evId body st).1 in
  let child := childId_or_null (body_childId body) in
  st' = st
  \/ exists e,
       getEvent st evId = Some e
       /\ check_event tz now e (bool_decide (is_Some child)) = None
       /\ check_registrant flt st (session_userId user) evId child = None
       /\ let st1 := with_new_registration st
                       (registrationWithCosts user evId body e) in
          st' = st1 \/ st' = (updateEventSeats st1 evId (-1)).1.
Proof.
  cbn zeta.
  destruct (flt CallGetEvent) eqn:Hflt.
  { unfold post_register. rewrite Hflt. now left. }
  destruct (getEvent st evId) as [e|] eqn:He.
  2:{ rewrite (register_unknown_event _ _ _ _ _ _ _ Hflt He). now left. }
  rewrite (post_register_found _ _ _ _ _ _ _ _ Hflt He). cbn zeta.
  destruct (check_event tz now e _) eqn:Hce; [now left|].
  destruct (check_registrant flt st _ _ _) eqn:Hcr; [now left|].
  destruct (flt CallCreateEventRegistration); [now left|].
  destruct (int4 _); [|now left].
  right. exists e. repeat split; try assumption.
  unfold update_seats_after_insert.
  repeat case_match; simplify_eq; cbn [fst]; auto.
Qed.

Lemma existsb_false_filter {A} (P : A -> Prop) `{!forall x, Decision (P x)}
    (f : A -> bool) (l : list A) :
  existsb f l = false -> (forall x, P x -> f x = true) -> filter P l = [].
Proof.
  intros Hex Hf. induction l as [|x l IH]; [reflexivity|].
  cbn [existsb] in Hex. apply orb_false_iff in Hex as [Hx Hl].
  rewrite filter_cons. destruct (decide (P x)) as [HP|HP].
  - apply Hf in HP. congruence.
  - now apply IH.
Qed.

(** A passed duplicate and ownership check: no row registers the same
    child, or the same parent alone, for the event, and the child is the
    requester's. *)
Lemma check_registrant_passed (flt : Faults) (st : Store)
    (userId evId : string) (child : option string) :
  check_registrant flt st userId evId child = None ->
  match child with
  | Some c =>
      child_rows st evId c = []
      /\ exists ch, getChild st c = Some ch /\ child_parentId ch = userId
  | None => parent_rows st evId userId = []
  end.
Proof.
  unfold check_registrant. intros H. destruct child as [c|].
  - destruct (flt CallIsChildRegisteredForEvent); [discriminate|].
    destruct (isChildRegisteredForEvent st c evId) eqn:Hreg; [discriminate|].
    destruct (flt CallGetChild); [discriminate|].
    destruct (getChild st c) as [ch|]; [|discriminate].
    destruct (bool_decide (child_parentId ch = userId)) eqn:Hown;
      [|discriminate].
    apply bool_decide_eq_true in Hown. split; [|eauto].
    unfold child_rows. rewrite child_unique_rule in Hreg.
    apply (existsb_false_filter _ _ _ Hreg).
    intros r [-> ->]. now rewrite !bool_decide_eq_true_2.
  - destruct (flt CallGetEventRegistrationsByParent); [discriminate|].
    cbn zeta in H.
    destruct (existsb _ _) eqn:Hreg; [discriminate|].
    rewrite parent_unique_rule in Hreg. unfold parent_rows.
    apply (existsb_false_filter _ _ _ Hreg).
    intros r (-> & -> & ->). now rewrite !bool_decide_eq_true_2.
Qed.

Lemma updateEventSeats_rows (st : Store) (evId : string) (d : Z) :
  eventRegistrations (updateEventSeats st evId d).1 = eventRegistrations st
  /\ attendee (updateEventSeats st evId d).1 = attendee st
  /\ users (updateEventSeats st evId d).1 = users st.
Proof.
  unfold updateEventSeats, update_returning.
  destruct (events st !! evId); repeat split.
Qed.

(** X4: a registration request, whatever storage calls throw, leaves
    children and users alone, leaves every other event alone, takes at
    most one seat of its event and changes no other column of it (the
    [updatedAt] timestamp apart, which the seat update sets and the
    model does not carry), and removes no registration row: the rows
    afterwards are the rows before, or those and one more. *)
Theorem registration_frame (tz : TimeZone) (flt : Faults) (now : Z)
    (user : SessionUser) (evId : string) (body : RegisterBody) (st : Store) :
  let st' := (post_register tz flt now user evId body st).1 in
  attendee st' = attendee st
  /\ users st' = users st
  /\ (forall id, id ≠ evId -> events st' !! id = events st !! id)
  /\ (events st' !! evId = events st !! evId
      \/ events st' !! evId = add_seats (-1) <$> events st !! evId)
  /\ (eventRegistrations st' = eventRegistrations st
      \/ exists r, eventRegistrations st' = eventRegistrations st ++ [r]).
Proof.
  cbn zeta.
  destruct (post_register_outcome tz flt now user evId body st)
    as [-> | (e & He & _ & _ & [-> | ->])].
  - repeat split; auto.
  - repeat split; auto. right. eexists. reflexivity.
  - destruct (updateEventSeats_rows
                (with_new_registration st
                   (registrationWithCosts user evId body e)) evId (-1))
      as (Hrows & Hatt & Husers).
    rewrite Hrows, Hatt, Husers.
    unfold updateEventSeats, update_returning, getEvent in *.
    cbn [with_new_registration fst events with_eventRegistrations].
    rewrite He. cbn [fst events with_events].
    repeat split.
    + intros id Hid. now apply lookup_insert_ne.
    + right. now rewrite lookup_insert_eq.
    + right. eexists. reflexivity.
Qed.

Lemma registration_frame_witness :
  events (post_register utc_zone no_faults 0 (LocalSession Sample.parent1)
            "e1" Sample.child_request Sample.db).1 !! "e-full"%string
  = Some Sample.workshop_full_late.
Proof.
  destruct (registration_frame utc_zone no_faults 0
              (LocalSession Sample.parent1) "e1" Sample.child_request
              Sample.db) as (_ & _ & Hother & _).
  rewrite Hother by discriminate. vm_compute. reflexivity.
Defined.

(** X5: a registration that is accepted, handled without another
    request's storage call in between, passed every check on the store
    it found, whatever storage calls may throw: the event had a seat
    left and the handler's cutoff instant had not passed (on a server
    whose zone has a fixed offset that instant is the start time less
    the cutoff hours), the row is the requester's, its services cost is
    a whole number the column can hold, nobody was registered twice, and
    a registered child is the requester's own. *)
Theorem accepted_registration_sound (tz : TimeZone) (flt : Faults)
    (now : Z) (user : SessionUser) (evId : string) (body : RegisterBody)
    (st st' : Store) (r : EventRegistration) :
  post_register tz flt now user evId body st = (st', Created r) ->
  exists e,
    getEvent st evId = Some e
    /\ 0 < remainingSeats e
    /\ now <= register_cutoffTime tz e
    /\ (fixed_offset tz -> now <= startTime e - cutoffHours e * msPerHour)
    /\ eventId r = evId
    /\ parentId r = session_userId user
    /\ is_Some (int4 (servicesCost r))
    /\ match childId r with
       | Some c =>
           allowedRegistrants_or_default e ≠ "user"%string
           /\ child_rows st evId c = []
           /\ exists ch,
                getChild st c = Some ch
                /\ child_parentId ch = session_userId user
       | None =>
           allowedRegistrants_or_default e ≠ "attendee"%string
           /\ parent_rows st evId (session_userId user) = []
       end.
Proof.
  intros Hpost.
  apply post_register_created in Hpost
    as (e & He & Hr & Hce & _ & Hcr & _ & _ & Hint).
  exists e. split; [exact He|].
  apply check_registrant_passed in Hcr.
  assert (Hid : eventId r = evId) by now rewrite Hr.
  assert (Hpid : parentId r = session_userId user) by now rewrite Hr.
  unfold check_event in Hce.
  destruct (Z.leb_spec (remainingSeats e) 0); [discriminate|].
  destruct (Z.ltb_spec (register_cutoffTime tz e) now); [discriminate|].
  split; [assumption|]. split; [assumption|].
  split; [intros Htz; now rewrite <- (register_cutoffTime_eq tz e Htz)|].
  split; [assumption|]. split; [assumption|]. split; [assumption|].
  destruct (childId r) as [c|].
  - rewrite bool_decide_eq_true_2 in Hce by eauto. cbn in Hce.
    rewrite andb_false_r, andb_true_r in Hce.
    split; [|exact Hcr].
    intros Hmode. rewrite Hmode in Hce. discriminate.
  - rewrite bool_decide_eq_false_2 in Hce by (intros [? [=]]). cbn in Hce.
    rewrite andb_true_r in Hce.
    split; [|exact Hcr].
    intros Hmode. rewrite Hmode in Hce. discriminate.
Qed.

Lemma accepted_registration_sound_witness :
  exists ch,
    getChild Sample.db "c1" = Some ch /\ child_parentId ch = "p1"%string.
Proof.
  destruct (accepted_registration_sound utc_zone no_faults 0
              (LocalSession Sample.parent1) "e1" Sample.child_request
              Sample.db
              (post_register utc_zone no_faults 0
                 (LocalSession Sample.parent1) "e1" Sample.child_request
                 Sample.db).1
              (registrationWithCosts (LocalSession Sample.parent1) "e1"
                 Sample.child_request Sample.workshop))
    as (e & _ & _ & _ & _ & _ & _ & _ & Hchild).
  - vm_compute. reflexivity.
  - cbn in Hchild. destruct Hchild as (_ & _ & Hown). exact Hown.
Defined.

(** ** No double booking *)

Lemma child_rows_app (st : Store) (r : EventRegistration) (ev c : string) :
  child_rows (with_new_registration st r) ev c =
  child_rows st ev c
  ++ (if decide (eventId r = ev /\ childId r = Some c) then [r] else []).
Proof.
  unfold child_rows. cbn [with_new_registration eventRegistrations
    with_eventRegistrations].
  rewrite filter_app. f_equal.
Qed.

Lemma parent_rows_app (st : Store) (r : EventRegistration) (ev p : string) :
  parent_rows (with_new_registration st r) ev p =
  parent_rows st ev p
  ++ (if decide (eventId r = ev /\ parentId r = p /\ childId r = None)
      then [r] else []).
Proof.
  unfold parent_rows. cbn [with_new_registration eventRegistrations
    with_eventRegistrations].
  rewrite filter_app. f_equal.
Qed.

Lemma no_double_booking_rows (st st' : Store) :
  eventRegistrations st' = eventRegistrations st ->
  no_double_booking st -> no_double_booking st'.
Proof.
  unfold no_double_booking, child_rows, parent_rows. now intros ->.
Qed.

(** A new row for a registrant who has none for the event. *)
Lemma no_double_booking_new_row (st : Store) (r : EventRegistration) :
  no_double_booking st ->
  match childId r with
  | Some c => child_rows st (eventId r) c = []
  | None => parent_rows st (eventId r) (parentId r) = []
  end ->
  no_double_booking (with_new_registration st r).
Proof.
  intros [Hchild Hparent] Hnew. split.
  - intros ev c. rewrite child_rows_app.
    destruct (decide (eventId r = ev /\ childId r = Some c)) as [[<- Hc]|_].
    + rewrite Hc in Hnew. rewrite Hnew. cbn. lia.
    + rewrite app_nil_r. apply Hchild.
  - intros ev p. rewrite parent_rows_app.
    destruct (decide (eventId r = ev /\ parentId r = p /\ childId r = None))
      as [(<- & <- & Hc)|_].
    + rewrite Hc in Hnew. rewrite Hnew. cbn. lia.
    + rewrite app_nil_r. apply Hparent.
Qed.

Lemma post_register_no_double_booking (tz : TimeZone) (flt : Faults)
    (now : Z) (user : SessionUser) (evId : string) (body : RegisterBody)
    (st : Store) :
  no_double_booking st ->
  no_double_booking (post_register tz flt now user evId body st).1.
Proof.
  intros Hinv.
  destruct (post_register_outcome tz flt now user evId body st)
    as [-> | (e & He & _ & Hcr & Hst')]; [exact Hinv|].
  apply check_registrant_passed in Hcr. cbn zeta in Hst'.
  set (row := registrationWithCosts user evId body e) in *.
  assert (Hst1 : no_double_booking (with_new_registration st row)).
  { apply no_double_booking_new_row; [exact Hinv|].
    cbn [row registrationWithCosts childId eventId parentId].
    destruct (childId_or_null (body_childId body)); [apply Hcr|exact Hcr]. }
  destruct Hst' as [-> | ->]; [exact Hst1|].
  eapply no_double_booking_rows; [|exact Hst1].
  apply updateEventSeats_rows.
Qed.

Lemma update_returning_rows (f : Event -> Event) (evId : string)
    (st : Store) :
  eventRegistrations (update_returning f evId st).1 = eventRegistrations st.
Proof. unfold update_returning. now destruct (events st !! evId). Qed.

(** Rows keep their events when no key of the events is lost. *)
Lemma rows_reference_events_keys (st st' : Store) :
  eventRegistrations st' = eventRegistrations st ->
  (forall id, is_Some (events st !! id) -> is_Some (events st' !! id)) ->
  rows_reference_events st -> rows_reference_events st'.
Proof.
  unfold rows_reference_events. intros Hrows Hkeys Hinv r Hr.
  rewrite Hrows in Hr. auto.
Qed.

Lemma update_returning_keys (f : Event -> Event) (evId : string)
    (st : Store) (id : string) :
  is_Some (events st !! id) ->
  is_Some (events (update_returning f evId st).1 !! id).
Proof.
  unfold update_returning. intros Hid.
  destruct (events st !! evId) as [e|] eqn:He; [|exact Hid].
  cbn. apply lookup_insert_is_Some.
  destruct (decide (evId = id)); auto.
Qed.

Lemma rows_reference_events_new_row (st : Store) (r : EventRegistration) :
  rows_reference_events st ->
  is_Some (events st !! eventId r) ->
  rows_reference_events (with_new_registration st r).
Proof.
  unfold rows_reference_events. intros Hinv Hr r' Hr'.
  cbn in Hr'. apply elem_of_app in Hr' as [Hr'|Hr'].
  - now apply Hinv.
  - apply list_elem_of_singleton in Hr'. now subst r'.
Qed.

Lemma post_register_rows_reference_events (tz : TimeZone) (flt : Faults)
    (now : Z) (user : SessionUser) (evId : string) (body : RegisterBody)
    (st : Store) :
  rows_reference_events st ->
  rows_reference_events (post_register tz flt now user evId body st).1.
Proof.
  intros Hinv.
  destruct (post_register_outcome tz flt now user evId body st)
    as [-> | (e & He & _ & _ & Hst')]; [exact Hinv|].
  cbn zeta in Hst'.
  set (row := registrationWithCosts user evId body e) in *.
  assert (Hst1 : rows_reference_events (with_new_registration st row)).
  { apply rows_reference_events_new_row; [exact Hinv|].
    unfold getEvent in He. cbn. rewrite He. eauto. }
  destruct Hst' as [-> | ->]; [exact Hst1|].
  eapply rows_reference_events_keys; [| |exact Hst1].
  - apply updateEventSeats_rows.
  - intros id. apply update_returning_keys.
Qed.

(** An edit moves a row to another key only when no registration
    belongs to it. *)
Lemma put_event_rows_reference_events (flt : Faults) (evId : string)
    (b : EventBody) (staffIds : option (list string)) (st : Store) :
  rows_reference_events st ->
  rows_reference_events (put_event flt evId b staffIds st).1.
Proof.
  intros Hinv.
  destruct (put_event_store flt evId b staffIds st)
    as [-> | (e & He & Hkey & ->)]; [exact Hinv|].
  intros r Hr. cbn in Hr |- *. specialize (Hinv r Hr).
  apply lookup_insert_is_Some.
  destruct (decide (default evId (b_id b) = eventId r)) as [Heq|Hne];
    [now left|right].
  split; [exact Hne|].
  rewrite lookup_delete_ne; [exact Hinv|].
  intros Hold. unfold rekey_refused in Hkey.
  apply andb_false_iff in Hkey as [Hkey|Hkey].
  - apply bool_decide_eq_false in Hkey. apply dec_stable in Hkey.
    congruence.
  - apply orb_false_iff in Hkey as [_ Hkey].
    assert (Hex : existsb (fun r0 => bool_decide (eventId r0 = evId))
                    (eventRegistrations st) = true).
    { apply existsb_exists. exists r. split.
      - now apply list_elem_of_In.
      - now apply bool_decide_eq_true_2. }
    congruence.
Qed.

Lemma filter_none {A} (P : A -> Prop) `{!forall x, Decision (P x)}
    (l : list A) :
  (forall x, x ∈ l -> ~ P x) -> filter P l = [].
Proof.
  induction l as [|a l IH]; intros Hno; [reflexivity|].
  rewrite filter_cons. destruct (decide (P a)) as [Ha|Ha].
  - exfalso. apply (Hno a); [left|exact Ha].
  - apply IH. intros x Hx. apply Hno. now right.
Qed.

Lemma step_no_double_booking (st : Store) (op : Operation) :
  no_double_booking st -> rows_reference_events st ->
  no_double_booking (step st op) /\ rows_reference_events (step st op).
Proof.
  intros Hinv Hfk.
  destruct op as [tz flt now user evId body | throws user newId b staffIds
    | flt evId b staffIds | flt evId s | flt evId | flt evId | evId d];
    cbn [step].
  - split; [now apply post_register_no_double_booking|].
    now apply post_register_rows_reference_events.
  - destruct (post_admin_event_store throws user newId b staffIds
                {| store := st; eventSupervisors := [] |})
      as [Hsame | (Hfree & Hev & _ & _ & Hrows)]; cbn [store] in *.
    { rewrite Hsame. now split. }
    set (st' := store (post_admin_event throws user newId b staffIds
                         {| store := st; eventSupervisors := [] |}).1) in *.
    assert (Hkeys : forall id,
              is_Some (events st !! id) -> is_Some (events st' !! id)).
    { intros id Hid. rewrite Hev. apply lookup_insert_is_Some.
      destruct (decide (newId = id)); auto. }
    destruct Hrows as [Hrows | Hrows].
    + split; [now apply (no_double_booking_rows st)|].
      now apply (rows_reference_events_keys st).
    + set (row := auto_registration newId (session_userId user)) in *.
      assert (Hnone : parent_rows st (eventId row) (parentId row) = []).
      { unfold parent_rows. apply filter_none.
        intros r Hr (Hid & _). apply Hfk in Hr. cbn in Hid.
        rewrite Hid, Hfree in Hr. now destruct Hr. }
      split.
      * apply (no_double_booking_rows (with_new_registration st row));
          [exact Hrows|].
        now apply no_double_booking_new_row.
      * intros r Hr. rewrite Hrows in Hr.
        apply elem_of_app in Hr as [Hr|Hr]; [now apply Hkeys, Hfk|].
        apply list_elem_of_singleton in Hr. subst r. cbn.
        rewrite Hev. rewrite lookup_insert_eq. eauto.
  - split; [|now apply put_event_rows_reference_events].
    eapply no_double_booking_rows; [|exact Hinv].
    destruct (put_event_store flt evId b staffIds st)
      as [-> | (e & _ & _ & ->)]; reflexivity.
  - assert (Hst' : (put_event_status flt evId s st).1 = st
                   \/ (put_event_status flt evId s st).1
                      = (update_returning (set_status s) evId st).1).
    { unfold put_event_status, updateEventStatus.
      destruct (flt CallUpdateEventStatus); [now left|]. right.
      now destruct (update_returning _ _ _) as [st' [e'|]]. }
    destruct Hst' as [-> | ->]; [now split|]. split.
    + eapply no_double_booking_rows; [|exact Hinv].
      apply update_returning_rows.
    + eapply rows_reference_events_keys; [| |exact Hfk].
      * apply update_returning_rows.
      * intros id. apply update_returning_keys.
  - assert (Hst' : (delete_event flt evId st).1 = st
                   \/ (delete_event flt evId st).1
                      = (update_returning (set_deleted true) evId st).1).
    { unfold delete_event, softDeleteEvent.
      destruct (flt CallSoftDeleteEvent); [now left|]. right.
      destruct (update_returning _ _ _) as [st' o].
      now destruct (bool_decide (is_Some o)). }
    destruct Hst' as [-> | ->]; [now split|]. split.
    + eapply no_double_booking_rows; [|exact Hinv].
      apply update_returning_rows.
    + eapply rows_reference_events_keys; [| |exact Hfk].
      * apply update_returning_rows.
      * intros id. apply update_returning_keys.
  - assert (Hst' : (restore_event flt evId st).1 = st
                   \/ (restore_event flt evId st).1
                      = (update_returning (set_deleted false) evId st).1).
    { unfold restore_event, restoreEvent.
      destruct (flt CallRestoreEvent); [now left|]. right.
      destruct (update_returning _ _ _) as [st' o].
      now destruct (bool_decide (is_Some o)). }
    destruct Hst' as [-> | ->]; [now split|]. split.
    + eapply no_double_booking_rows; [|exact Hinv].
      apply update_returning_rows.
    + eapply rows_reference_events_keys; [| |exact Hfk].
      * apply update_returning_rows.
      * intros id. apply update_returning_keys.
  - split.
    + eapply no_double_booking_rows; [|exact Hinv].
      apply updateEventSeats_rows.
    + eapply rows_reference_events_keys; [| |exact Hfk].
      * apply updateEventSeats_rows.
      * intros id. apply update_returning_keys.
Qed.

(** X6: operations carried out one at a time, each from its first
    storage call to its answer before the next one starts (registration
    requests, event creations, administrative edits, status updates,
    deletions, restorations and seat deltas, whatever storage calls
    throw in between) register no child twice for an event, and no
    parent alone twice for an event, when none was so registered at the
    start and every registration belongs to a stored event, as the
    foreign key of the table has it; and every registration still
    belongs to a stored event afterwards.  (Requests that overlap are
    not covered: the same request sent twice, taking turns, leaves two
    rows for the child.) *)
Theorem no_double_booking_preserved (ops : list Operation) (st : Store) :
  no_double_booking st -> rows_reference_events st ->
  no_double_booking (run ops st) /\ rows_reference_events (run ops st).
Proof.
  revert st. induction ops as [|op ops IH]; intros st Hinv Hfk;
    [now split|].
  cbn [run fold_left].
  destruct (step_no_double_booking st op Hinv Hfk) as [Hinv' Hfk'].
  now apply IH.
Qed.

Lemma no_double_booking_preserved_witness :
  no_double_booking
    (run [OpRegister utc_zone no_faults 0 (LocalSession Sample.parent1) "e1"
            Sample.child_request;
          OpRegister utc_zone no_faults 0 (LocalSession Sample.parent1) "e1"
            Sample.child_request]
       Sample.db)
  /\ length (eventRegistrations
       (run [OpRegister utc_zone no_faults 0 (LocalSession Sample.parent1)
               "e1" Sample.child_request;
             OpRegister utc_zone no_faults 0 (LocalSession Sample.parent1)
               "e1" Sample.child_request]
          Sample.db)) = 1%nat.
Proof.
  split; [|vm_compute; reflexivity].
  apply no_double_booking_preserved.
  - split; intros ev c; cbn; lia.
  - intros r Hr. inversion Hr.
Defined.

(** X7: a request for a registrant who already has a row for the event
    (the same child, or the same parent without a child) is never
    accepted, at any time and whatever else the store holds. *)
Theorem repeated_registration_rejected (tz : TimeZone) (flt : Faults)
    (now : Z) (user : SessionUser) (evId : string) (body : RegisterBody)
    (st : Store) (r : EventRegistration) :
  r ∈ eventRegistrations st ->
  eventId r = evId ->
  childId r = childId_or_null (body_childId body) ->
  (childId r = None -> parentId r = session_userId user) ->
  forall st' r', post_register tz flt now user evId body st ≠ (st', Created r').
Proof.
  intros Hin Hev Hchild Hparent st' r' Hpost.
  apply post_register_created in Hpost
    as (e & _ & Hr' & _ & _ & Hcr & _ & _).
  apply check_registrant_passed in Hcr.
  assert (Hc : childId r' = childId r) by (rewrite Hr'; now rewrite Hchild).
  rewrite Hc in Hcr.
  destruct (childId r) as [c|] eqn:Hcr'.
  - destruct Hcr as [Hempty _].
    assert (Hr : r ∈ child_rows st evId c).
    { unfold child_rows. apply list_elem_of_filter. auto. }
    rewrite Hempty in Hr. inversion Hr.
  - assert (Hr : r ∈ parent_rows st evId (session_userId user)).
    { unfold parent_rows. apply list_elem_of_filter. auto. }
    rewrite Hcr in Hr. inversion Hr.
Qed.

Lemma repeated_registration_rejected_witness :
  (post_register utc_zone no_faults 0 (LocalSession Sample.admin1) "e1"
     Sample.self_request Sample.db_registered).2
  ≠ Created Sample.admin_self_row.
Proof.
  intros Heq.
  assert (Hin : Sample.admin_self_row
                ∈ eventRegistrations Sample.db_registered).
  { apply list_elem_of_In. vm_compute. right; left; reflexivity. }
  apply (repeated_registration_rejected utc_zone no_faults 0
           (LocalSession Sample.admin1) "e1" Sample.self_request
           Sample.db_registered Sample.admin_self_row
           Hin eq_refl eq_refl (fun _ => eq_refl)
           (post_register utc_zone no_faults 0 (LocalSession Sample.admin1) "e1"
              Sample.self_request Sample.db_registered).1
           Sample.admin_self_row).
  rewrite <- Heq. apply surjective_pairing.
Defined.

(** ** The parent's listings after a registration *)

(** X8: an accepted child registration shows in the parent's detailed
    listing right away, with the event it was made for; and that listing
    is in order of the events' start times, earliest first. *)
Theorem registration_appears_in_my_events (tz : TimeZone) (flt : Faults)
    (now : Z) (user : SessionUser) (evId : string) (body : RegisterBody)
    (st st' : Store) (r : EventRegistration) :
  post_register tz flt now user evId body st = (st', Created r) ->
  is_Some (childId r) ->
  (exists d,
     d ∈ getEventRegistrationsWithDetailsForParent st' (session_userId user)
     /\ d_registration d = r /\ d_event_id d = evId)
  /\ StronglySorted by_startTime
       (getEventRegistrationsWithDetailsForParent st' (session_userId user)).
Proof.
  intros Hpost [c Hc]. split.
  2:{ unfold getEventRegistrationsWithDetailsForParent.
      apply StronglySorted_merge_sort; apply _. }
  apply post_register_created in Hpost
    as (e & He & Hr & _ & Hup & Hcr & _ & _).
  apply check_registrant_passed in Hcr. rewrite Hc in Hcr.
  destruct Hcr as (_ & ch & Hch & _).
  apply update_seats_after_insert_spec in Hup as (Hst' & _).
  rewrite Hc in Hst'.
  specialize (Hst' (bool_decide_eq_true_2 _ (ex_intro _ c eq_refl))).
  set (st1 := with_new_registration st r) in *.
  destruct (updateEventSeats_rows st1 evId (-1)) as (Hrows & Hatt & _).
  pose proof (updateEventSeats_lookup st1 evId (-1) e He) as He'.
  rewrite <- Hst' in Hrows, Hatt, He'.
  assert (Hid : eventId r = evId) by now rewrite Hr.
  assert (Hpid : parentId r = session_userId user) by now rewrite Hr.
  eexists. split; [|split].
  - apply details_listing_elem. exists r. split; [|split; [exact Hpid|]].
    + rewrite Hrows. cbn. apply elem_of_app. right.
      now apply list_elem_of_singleton.
    + unfold join_details, getEvent, getChild in *.
      rewrite Hid, He', Hc. cbn. rewrite Hatt. cbn.
      rewrite Hch. cbn. reflexivity.
  - reflexivity.
  - reflexivity.
Qed.

Lemma registration_appears_in_my_events_witness :
  exists d,
    d ∈ getEventRegistrationsWithDetailsForParent Sample.db_registered "p1"
    /\ d_event_id d = "e1"%string.
Proof.
  set (st1 := (post_register utc_zone no_faults 0
                 (LocalSession Sample.parent1) "e1" Sample.child_request
                 Sample.db).1).
  destruct (registration_appears_in_my_events utc_zone no_faults 0
              (LocalSession Sample.parent1) "e1" Sample.child_request
              Sample.db st1
              (registrationWithCosts (LocalSession Sample.parent1) "e1"
                 Sample.child_request Sample.workshop))
    as [(d & Hd & _ & Hid) _].
  - vm_compute. reflexivity.
  - eexists. reflexivity.
  - exists d. split; [|exact Hid].
    apply details_listing_elem in Hd as (r & Hr & Hp & Hj).
    apply details_listing_elem. exists r. split; [|split; [exact Hp|]].
    + apply list_elem_of_In. apply list_elem_of_In in Hr.
      vm_compute in Hr. vm_compute. tauto.
    + exact Hj.
Defined.

(** ** Soft deletion and restoration *)

Lemma set_deleted_restore (e : Event) :
  deleted e = false -> set_deleted false (set_deleted true e) = e.
Proof. destruct e. cbn. now intros ->. Qed.

(** X9: deleting an event that is not deleted keeps its row, with every
    column but the flag and the [updatedAt] timestamp as it was, hides
    it from the listing for ordinary users, and restoring it afterwards
    gives back the store as it was, but for the [updatedAt] of the row,
    which both writes set and the model does not carry; for an unknown
    id both routes answer 404 and change nothing. *)
Theorem soft_delete_restore_round_trip (st : Store) (evId : string) :
  (forall e, getEvent st evId = Some e -> deleted e = false ->
     let st1 := (delete_event no_faults evId st).1 in
     (delete_event no_faults evId st).2 = OkMessage
     /\ getEvent st1 evId = Some (set_deleted true e)
     /\ (forall now row, row ∈ getEventsForUser st1 now -> row.1 ≠ evId)
     /\ restore_event no_faults evId st1 = (st, OkMessage))
  /\ (getEvent st evId = None ->
      delete_event no_faults evId st = (st, AdminEventNotFound)
      /\ restore_event no_faults evId st = (st, AdminEventNotFound)).
Proof.
  split.
  - intros e He Hdel.
    assert (Hdelete : delete_event no_faults evId st
                      = (with_events st
                           (<[evId := set_deleted true e]> (events st)),
                         OkMessage)).
    { unfold delete_event, softDeleteEvent, update_returning, getEvent in *.
      cbn [no_faults]. rewrite He. reflexivity. }
    rewrite Hdelete. cbn [fst snd].
    set (st1 := with_events st (<[evId := set_deleted true e]> (events st))).
    assert (He1 : getEvent st1 evId = Some (set_deleted true e))
      by apply lookup_insert_eq.
    split; [reflexivity|]. split; [exact He1|]. split.
    + intros now [id row] Hrow <-.
      unfold getEventsForUser in Hrow.
      apply list_elem_of_filter in Hrow as [_ Hrow].
      apply getAllEvents_elem in Hrow as (e' & He' & Hdel' & _).
      unfold getEvent in He1. cbn [fst] in He1, He'. rewrite He1 in He'.
      injection He' as <-. now specialize (Hdel' eq_refl).
    + unfold restore_event, restoreEvent, update_returning, getEvent in *.
      cbn [no_faults]. rewrite He1. cbn.
      rewrite insert_insert_eq, set_deleted_restore by assumption.
      rewrite insert_id by assumption. f_equal. subst st1. now destruct st.
  - intros Hnone.
    unfold delete_event, restore_event, softDeleteEvent, restoreEvent,
      update_returning, getEvent in *.
    cbn [no_faults]. rewrite Hnone. split; reflexivity.
Qed.

Lemma soft_delete_restore_round_trip_witness :
  restore_event no_faults "e1" (delete_event no_faults "e1" Sample.db).1
  = (Sample.db, OkMessage).
Proof.
  destruct (soft_delete_restore_round_trip Sample.db "e1") as [Hfound _].
  destruct (Hfound Sample.workshop) as (_ & _ & _ & Hback).
  - vm_compute. reflexivity.
  - reflexivity.
  - exact Hback.
Defined.

(** ** The administrator guard *)

Lemma find_fmap_preserved {A} (P : A -> bool) (f : A -> A) (l : list A) :
  (forall x, P (f x) = P x) ->
  List.find P (f <$> l) = f <$> List.find P l.
Proof.
  intros HP. induction l as [|x l IH]; [reflexivity|].
  cbn. rewrite HP. destruct (P x); [reflexivity|exact IH].
Qed.

(** A session whose stored user row is not an administrator's is
    answered by the guard. *)
Lemma admin_route_denied {A : Type} (flt : Faults) (c : SessionCookie)
    (handler : SessionUser -> Store -> Store * A) (st : Store) :
  (forall u, current_user st c = Some u -> role u ≠ "admin"%string) ->
  (admin_route flt c handler st).1 = st
  /\ exists g, (admin_route flt c handler st).2 = Denied g /\ g ≠ Next.
Proof.
  unfold admin_route, deserializeUser, isAuthenticated, isAdmin, current_user.
  intros Hrole. destruct c as [|sub|id]; cbn.
  - split; [reflexivity|]. eexists. split; [reflexivity|discriminate].
  - destruct (flt CallGetUserByReplitId);
      [split; [reflexivity|eexists; split; [reflexivity|discriminate]]|].
    destruct (getUserByReplitId st sub) as [u|];
      [|split; [reflexivity|eexists; split; [reflexivity|discriminate]]].
    destruct (String.eqb_spec (role u) "admin") as [Hr|Hr];
      [now destruct (Hrole u eq_refl)|].
    split; [reflexivity|eexists; split; [reflexivity|discriminate]].
  - destruct (getUser st id) as [u|]; cbn;
      [|split; [reflexivity|eexists; split; [reflexivity|discriminate]]].
    destruct (String.eqb_spec (role u) "admin") as [Hr|Hr];
      [now destruct (Hrole u eq_refl)|].
    split; [reflexivity|eexists; split; [reflexivity|discriminate]].
Qed.

(** X10: a handler behind the administrator guard runs only for a
    session whose user row, as stored at the time of the request, has
    the role [admin]; every other request is answered by the guard and
    leaves the store as it was. *)
Theorem admin_route_requires_admin {A : Type} (flt : Faults)
    (c : SessionCookie) (handler : SessionUser -> Store -> Store * A)
    (st : Store) :
  (forall a, (admin_route flt c handler st).2 = Handled a ->
     exists u, current_user st c = Some u /\ role u = "admin"%string)
  /\ ((forall u, current_user st c = Some u -> role u ≠ "admin"%string) ->
      (admin_route flt c handler st).1 = st
      /\ exists g, (admin_route flt c handler st).2 = Denied g /\ g ≠ Next).
Proof.
  split; [|apply admin_route_denied].
  unfold admin_route, deserializeUser, isAuthenticated, isAdmin, current_user.
  intros a. destruct c as [|sub|id]; cbn.
  - discriminate.
  - destruct (flt CallGetUserByReplitId); [discriminate|].
    destruct (getUserByReplitId st sub) as [u|]; [|discriminate].
    destruct (String.eqb_spec (role u) "admin"); [eauto|discriminate].
  - destruct (getUser st id) as [u|]; cbn; [|discriminate].
    destruct (String.eqb_spec (role u) "admin"); [eauto|discriminate].
Qed.

Lemma admin_route_requires_admin_witness :
  (admin_route no_faults (LocalCookie "p1")
     (fun _ => delete_event no_faults "e1") Sample.db).1 = Sample.db.
Proof.
  destruct (admin_route_requires_admin no_faults (LocalCookie "p1")
              (fun _ => delete_event no_faults "e1") Sample.db)
    as [_ Hdenied].
  apply Hdenied. intros u Hu. vm_compute in Hu. injection Hu as <-.
  discriminate.
Defined.

(** ** Changing roles *)

Lemma updateUserRole_users (st : Store) (userId r : string) (u' : User) :
  u' ∈ users (updateUserRole st userId r).1 ->
  u' ∈ users st
  \/ exists u, u ∈ users st /\ user_id u = userId /\ u' = set_role r u.
Proof.
  unfold updateUserRole. cbn. intros (u & -> & Hu)%list_elem_of_fmap.
  destruct (bool_decide (user_id u = userId)) eqn:Hid; [|now left].
  apply bool_decide_eq_true in Hid. right. eauto.
Qed.

(** The store after the role route: untouched, or updated with one of
    the three roles below [admin]. *)
Lemma patch_user_role_store (throws : bool) (userId r : string) (st : Store) :
  (patch_user_role throws userId r st).1 = st
  \/ (lesser_role r /\ throws = false
      /\ (patch_user_role throws userId r st).1
         = (updateUserRole st userId r).1).
Proof.
  unfold patch_user_role, assignable_roles.
  destruct (decide (r ∈ ["admin"; "staff"; "user"; "attendee"]%string))
    as [Hin|Hin].
  2:{ rewrite bool_decide_eq_false_2 by assumption. now left. }
  rewrite bool_decide_eq_true_2 by assumption. cbn [negb].
  destruct (String.eqb_spec r "admin") as [Hadmin|Hadmin]; [now left|].
  destruct throws; [now left|]. right.
  split; [|split; [reflexivity|]].
  - apply list_elem_of_In in Hin. cbn in Hin. unfold lesser_role.
    destruct Hin as [<- | [<- | [<- | [<- | []]]]]; auto. congruence.
  - unfold updateUserRole. now destruct (set_role r <$> getUser st userId).
Qed.

(** X11: the role route never makes an administrator: a user who is
    [admin] after the request was [admin], with the same row, before
    it.  It keeps the users' ids and number, refuses every role outside
    the four known ones and the role [admin] without touching the store,
    and writes any of the other three to the user named. *)
Theorem role_route_never_grants_admin (throws : bool) (userId r : string)
    (st : Store) :
  let st' := (patch_user_role throws userId r st).1 in
  (forall u', u' ∈ users st' -> role u' = "admin"%string -> u' ∈ users st)
  /\ user_id <$> users st' = user_id <$> users st
  /\ replitId <$> users st' = replitId <$> users st
  /\ (~ lesser_role r -> st' = st)
  /\ (throws = false -> lesser_role r ->
      forall u, getUser st userId = Some u ->
        (patch_user_role throws userId r st).2 = RoleUpdated (set_role r u)
        /\ getUser st' userId = Some (set_role r u)).
Proof.
  cbn zeta. split; [|split; [|split; [|split]]].
  - intros u' Hu' Hrole.
    destruct (patch_user_role_store throws userId r st)
      as [Hsame | (Hr & _ & Hupd)]; [now rewrite Hsame in Hu'|].
    rewrite Hupd in Hu'.
    apply updateUserRole_users in Hu' as [Hu' | (u & _ & _ & ->)];
      [exact Hu'|].
    cbn in Hrole. subst r. destruct Hr as [? | [? | ?]]; discriminate.
  - destruct (patch_user_role_store throws userId r st)
      as [-> | (_ & _ & ->)]; [reflexivity|].
    unfold updateUserRole. cbn [fst users with_users].
    rewrite <- list_fmap_compose. apply list_fmap_ext.
    intros _ u _. cbn. now destruct (bool_decide _).
  - destruct (patch_user_role_store throws userId r st)
      as [-> | (_ & _ & ->)]; [reflexivity|].
    unfold updateUserRole. cbn [fst users with_users].
    rewrite <- list_fmap_compose. apply list_fmap_ext.
    intros _ u _. cbn. now destruct (bool_decide _).
  - intros Hnot.
    destruct (patch_user_role_store throws userId r st)
      as [Hsame | (Hr & _)]; [exact Hsame|contradiction].
  - intros -> Hr u Hu.
    unfold patch_user_role, assignable_roles, updateUserRole.
    rewrite bool_decide_eq_true_2
      by (destruct Hr as [-> | [-> | ->]]; set_solver).
    cbn [negb].
    destruct (String.eqb_spec r "admin") as [->|_];
      [destruct Hr as [? | [? | ?]]; discriminate|].
    rewrite Hu. cbn. split; [reflexivity|].
    unfold getUser in *. cbn [users with_users].
    rewrite (find_fmap_preserved
               (fun u0 => bool_decide (user_id u0 = userId))).
    + rewrite Hu. cbn.
      apply find_some in Hu as [_ Hid]. now rewrite Hid.
    + intros x. destruct (bool_decide (user_id x = userId)) eqn:E;
        [cbn; exact E|exact E].
Qed.

Lemma role_route_never_grants_admin_witness :
  (patch_user_role false "p1" "admin" Sample.db).1 = Sample.db
  /\ getUser (patch_user_role false "p1" "staff" Sample.db).1 "p1"
     = Some (set_role "staff" Sample.parent1).
Proof.
  split.
  - apply (role_route_never_grants_admin false "p1" "admin" Sample.db).
    intros [? | [? | ?]]; discriminate.
  - apply (role_route_never_grants_admin false "p1" "staff" Sample.db);
      [reflexivity|left; reflexivity|reflexivity].
Defined.

Lemma patch_user_role_lesser (userId r : string) (st : Store) :
  lesser_role r ->
  (patch_user_role false userId r st).1 = (updateUserRole st userId r).1.
Proof.
  intros Hr. unfold patch_user_role, assignable_roles.
  rewrite bool_decide_eq_true_2
    by (destruct Hr as [-> | [-> | ->]]; set_solver).
  cbn [negb].
  destruct (String.eqb_spec r "admin") as [->|_];
    [destruct Hr as [? | [? | ?]]; discriminate|].
  unfold updateUserRole. now destruct (set_role r <$> getUser st userId).
Qed.

(** X12: a change of role takes effect at the user's next request:
    once the role route has given a user a role below [admin], every
    session of that user, by password or by Replit login, is turned away
    by the administrator guard. *)
Theorem demotion_takes_effect {A : Type} (flt : Faults) (userId r : string)
    (st : Store) (c : SessionCookie) (u : User)
    (handler : SessionUser -> Store -> Store * A) :
  lesser_role r ->
  current_user st c = Some u ->
  user_id u = userId ->
  let st' := (patch_user_role false userId r st).1 in
  current_user st' c = Some (set_role r u)
  /\ (admin_route flt c handler st').1 = st'
  /\ exists g, (admin_route flt c handler st').2 = Denied g /\ g ≠ Next.
Proof.
  intros Hr Hu Hid st'.
  assert (Hcur : current_user st' c = Some (set_role r u)).
  { subst st'. rewrite (patch_user_role_lesser _ _ _ Hr).
    unfold updateUserRole, current_user, getUser, getUserByReplitId in *.
    cbn [fst users with_users].
    destruct c as [|sub|id]; [discriminate| |].
    - rewrite (find_fmap_preserved
                 (fun u0 => bool_decide (replitId u0 = Some sub))).
      + rewrite Hu. cbn. now rewrite bool_decide_eq_true_2.
      + intros x. now destruct (bool_decide (user_id x = userId)).
    - rewrite (find_fmap_preserved
                 (fun u0 => bool_decide (user_id u0 = id))).
      + rewrite Hu. cbn. now rewrite bool_decide_eq_true_2.
      + intros x. now destruct (bool_decide (user_id x = userId)). }
  split; [exact Hcur|].
  apply admin_route_denied. intros u' Hu'. rewrite Hcur in Hu'.
  injection Hu' as <-. cbn.
  destruct Hr as [-> | [-> | ->]]; discriminate.
Qed.

Lemma demotion_takes_effect_witness :
  (admin_route no_faults (LocalCookie "a1")
     (fun _ => delete_event no_faults "e1")
     (patch_user_role false "a1" "staff" Sample.db).1).1
  = (patch_user_role false "a1" "staff" Sample.db).1.
Proof.
  apply (demotion_takes_effect no_faults "a1" "staff" Sample.db
           (LocalCookie "a1") Sample.admin1).
  - left. reflexivity.
  - vm_compute. reflexivity.
  - reflexivity.
Defined.

(** ** Creating events *)

(** [createEvent] on a key that is free, when the event insertion does
    not throw: the row is inserted, with status [open]. *)
Lemma createEvent_inserts (throws : CreateCall -> bool) (newId : string)
    (ev : InsertEvent) (staffIds : option (list string)) (db : Db) :
  events (store db) !! newId = None ->
  throws CallInsertEvent = false ->
  let '(db1, answer) := createEvent throws newId ev staffIds db in
  events (store db1) = <[newId := inserted_event ev]> (events (store db))
  /\ eventRegistrations (store db1) = eventRegistrations (store db)
  /\ attendee (store db1) = attendee (store db)
  /\ users (store db1) = users (store db)
  /\ match staffIds with
     | Some (s :: l) =>
         if throws CallInsertSupervisors
         then answer = None /\ eventSupervisors db1 = eventSupervisors db
         else answer = Some (inserted_event ev)
              /\ eventSupervisors db1
                 = eventSupervisors db ++ supervisorData newId (s :: l)
     | _ => answer = Some (inserted_event ev)
            /\ eventSupervisors db1 = eventSupervisors db
     end.
Proof.
  intros Hfree Hthrows. unfold createEvent. rewrite Hthrows, Hfree.
  rewrite bool_decide_eq_false_2 by (intros [? [=]]). cbn [orb].
  destruct staffIds as [[|s l]|]; [now repeat split| |now repeat split].
  destruct (throws CallInsertSupervisors); now repeat split.
Qed.

(** X13: creating an event under a free key stores it with status
    [open], whatever status the request asks for, with the seats of the
    request, and leaves the other events alone.  An administrator who
    names themself among the staff gets a registration row without a
    child, and the event keeps all its seats.  When the insertion of the
    supervisors throws, the answer is 500 and the event row stays. *)
Theorem created_event_is_open (throws : CreateCall -> bool)
    (user : SessionUser) (newId : string) (b : EventBody)
    (staffIds : option (list string)) (db : Db) :
  events (store db) !! newId = None ->
  throws CallInsertEvent = false ->
  let db' := (post_admin_event throws user newId b staffIds db).1 in
  let answer := (post_admin_event throws user newId b staffIds db).2 in
  let attending := exists l, staffIds = Some l /\ session_userId user ∈ l in
  (exists e',
     getEvent (store db') newId = Some e'
     /\ status e' = "open"%string
     /\ remainingSeats e' = b_remainingSeats b
     /\ maxSeats e' = b_maxSeats b
     /\ ((staffIds = None \/ staffIds = Some []
          \/ throws CallInsertSupervisors = false) ->
         answer = EventCreated e')
     /\ ((exists s l, staffIds = Some (s :: l))
         /\ throws CallInsertSupervisors = true ->
         answer = CreateFailed))
  /\ (forall id, id ≠ newId ->
        getEvent (store db') id = getEvent (store db) id)
  /\ (attending -> throws CallInsertSupervisors = false ->
      throws CallInsertRegistration = false ->
      eventRegistrations (store db')
      = eventRegistrations (store db)
        ++ [auto_registration newId (session_userId user)])
  /\ (~ attending ->
      eventRegistrations (store db') = eventRegistrations (store db)).
Proof.
  intros Hfree Hthrows. cbn zeta.
  unfold post_admin_event, createEventRegistration.
  cbn [auto_registration servicesCost]. change (int4 zero) with (Some 0).
  pose proof (createEvent_inserts throws newId (eventData_of b) staffIds db
                Hfree Hthrows) as Hcreate.
  destruct (createEvent throws newId (eventData_of b) staffIds db)
    as [db1 created].
  destruct Hcreate as (Hev & Hrows & _ & _ & Hsup).
  assert (Hlookup : forall db2,
            events (store db2) = events (store db1) ->
            getEvent (store db2) newId = Some (inserted_event (eventData_of b))
            /\ forall id, id ≠ newId ->
                 getEvent (store db2) id = getEvent (store db) id).
  { intros db2 Hdb2. unfold getEvent. rewrite Hdb2, Hev. split.
    - apply lookup_insert_eq.
    - intros id Hid. now apply lookup_insert_ne. }
  destruct staffIds as [[|s l]|].
  - (* an empty list of staff *)
    destruct Hsup as [-> _]. cbn.
    destruct (Hlookup db1 eq_refl) as [Hnew Hother].
    split; [|split; [exact Hother|split]].
    + eexists. split; [exact Hnew|]. repeat split.
      intros [(s & l & [=]) _].
    + intros (l & [= <-] & Hin). inversion Hin.
    + intros _. exact Hrows.
  - destruct (throws CallInsertSupervisors) eqn:Hts.
    + (* the supervisors' insertion throws *)
      destruct Hsup as [-> _]. cbn [fst snd].
      destruct (Hlookup db1 eq_refl) as [Hnew Hother].
      split; [|split; [exact Hother|split]].
      * eexists. split; [exact Hnew|]. repeat split.
        intros [[=] | [[=] | [=]]].
      * discriminate.
      * intros _. exact Hrows.
    + destruct Hsup as [-> _].
      destruct (decide (session_userId user ∈ s :: l)) as [Hin|Hin].
      * rewrite bool_decide_eq_true_2 by assumption. cbn [andb].
        destruct (throws CallInsertRegistration) eqn:Htr; cbn [negb fst snd].
        -- destruct (Hlookup db1 eq_refl) as [Hnew Hother].
           split; [|split; [exact Hother|split]].
           ++ eexists. split; [exact Hnew|]. repeat split.
              intros [_ [=]].
           ++ discriminate.
           ++ intros Hnot. exfalso. apply Hnot. eauto.
        -- set (db2 := {| store := with_new_registration (store db1)
                             (auto_registration newId (session_userId user));
                          eventSupervisors := eventSupervisors db1 |}).
           destruct (Hlookup db2 eq_refl) as [Hnew Hother].
           split; [|split; [exact Hother|split]].
           ++ eexists. split; [exact Hnew|]. repeat split.
              intros [_ [=]].
           ++ intros _ _ _. cbn. now rewrite Hrows.
           ++ intros Hnot. exfalso. apply Hnot. eauto.
      * rewrite bool_decide_eq_false_2 by assumption. cbn [andb fst snd].
        destruct (Hlookup db1 eq_refl) as [Hnew Hother].
        split; [|split; [exact Hother|split]].
        -- eexists. split; [exact Hnew|]. repeat split.
           intros [_ [=]].
        -- intros (l' & [= <-] & Hin'). contradiction.
        -- intros _. exact Hrows.
  - (* no staff ids in the request *)
    destruct Hsup as [-> _]. cbn.
    destruct (Hlookup db1 eq_refl) as [Hnew Hother].
    split; [|split; [exact Hother|split]].
    + eexists. split; [exact Hnew|]. repeat split.
      intros [(s & l & [=]) _].
    + intros (l & [=] & _).
    + intros _. exact Hrows.
Qed.

Lemma created_event_is_open_witness :
  exists e',
    getEvent
      (store (post_admin_event Sample2.never_throws
                (LocalSession Sample.admin1) "e-new" Sample2.new_event_body
                (Some ["s1"; "a1"]%string) Sample2.sample_db).1) "e-new"
    = Some e'
    /\ status e' = "open"%string
    /\ remainingSeats e' = 6.
Proof.
  destruct (created_event_is_open Sample2.never_throws
              (LocalSession Sample.admin1) "e-new" Sample2.new_event_body
              (Some ["s1"; "a1"]%string) Sample2.sample_db)
    as [(e' & He' & Hstatus & Hseats & _) _].
  - vm_compute. reflexivity.
  - reflexivity.
  - exists e'. repeat split; assumption.
Defined.

(** ** Children *)

(** X14: the routes that change or delete a child act for its parent
    only: for a child that does not exist or belongs to someone else they
    leave the store as it was, and answer 404 when the lookup does not
    throw; for the parent's own child, when nothing throws, the change is
    written and read back. *)
Theorem child_routes_owner_only (throws : ChildCall -> bool)
    (user : SessionUser) (cid : string) (body : ChildPatch) (st : Store) :
  ((forall ch, getChild st cid = Some ch ->
               child_parentId ch ≠ session_userId user) ->
   (put_child throws user cid body st).1 = st
   /\ (delete_child throws user cid st).1 = st
   /\ (throws CallReadChild = false ->
       (put_child throws user cid body st).2 = NoSuchChild
       /\ (delete_child throws user cid st).2 = NoSuchChild))
  /\ (forall ch, getChild st cid = Some ch ->
        child_parentId ch = session_userId user ->
        throws CallReadChild = false -> throws CallWriteChild = false ->
        (put_child throws user cid body st).2
        = ChildUpdated (set_child_fields body ch)
        /\ getChild (put_child throws user cid body st).1 cid
           = Some (set_child_fields body ch)).
Proof.
  unfold put_child, delete_child, updateChild, deleteChild, getChild. split.
  - intros Hnot.
    destruct (throws CallReadChild); [repeat split; discriminate|].
    destruct (attendee st !! cid) as [ch|] eqn:Hch;
      [|repeat split; reflexivity].
    rewrite bool_decide_eq_false_2 by now apply Hnot.
    repeat split; reflexivity.
  - intros ch Hch Hown -> ->. rewrite Hch.
    rewrite bool_decide_eq_true_2 by assumption.
    split; [reflexivity|]. cbn. apply lookup_insert_eq.
Qed.

Lemma child_routes_owner_only_witness :
  (delete_child Sample2.child_never_throws (LocalSession Sample.parent1)
     "c2" Sample.db_registered)
  = (Sample.db_registered, NoSuchChild).
Proof.
  destruct (child_routes_owner_only Sample2.child_never_throws
              (LocalSession Sample.parent1) "c2" (mkChildPatch None)
              Sample.db_registered) as [Hother _].
  destruct Hother as (_ & Hstore & Hanswer).
  - intros ch Hch. vm_compute in Hch. injection Hch as <-. discriminate.
  - destruct (Hanswer eq_refl) as [_ Hdel].
    rewrite <- Hstore at 2. rewrite <- Hdel. apply surjective_pairing.
Defined.

(** X15: deleting a child removes the child and, through the cascading
    foreign key, exactly the registrations made for it; no other child,
    no user and no event changes: the seats those registrations took
    are not given back. *)
Theorem delete_child_cascade (throws : ChildCall -> bool)
    (user : SessionUser) (cid : string) (st st' : Store) :
  delete_child throws user cid st = (st', ChildDeleted) ->
  getChild st' cid = None
  /\ (forall id, id ≠ cid -> getChild st' id = getChild st id)
  /\ (forall r, r ∈ eventRegistrations st' <->
                r ∈ eventRegistrations st /\ childId r ≠ Some cid)
  /\ events st' = events st
  /\ users st' = users st
  /\ exists ch,
       getChild st cid = Some ch
       /\ child_parentId ch = session_userId user.
Proof.
  unfold delete_child, deleteChild, getChild. intros H.
  destruct (throws CallReadChild); [discriminate|].
  destruct (attendee st !! cid) as [ch|] eqn:Hch; [|discriminate].
  destruct (bool_decide (child_parentId ch = session_userId user)) eqn:Hown;
    [|discriminate].
  apply bool_decide_eq_true in Hown.
  destruct (throws CallWriteChild); [discriminate|].
  injection H as <-. cbn. repeat split.
  - apply lookup_delete_eq.
  - intros id Hid. now apply lookup_delete_ne.
  - now apply list_elem_of_filter in H as [? ?].
  - now apply list_elem_of_filter in H as [? ?].
  - intros [Hr Hc]. now apply list_elem_of_filter.
  - eauto.
Qed.

Lemma delete_child_cascade_witness :
  eventRegistrations
    (delete_child Sample2.child_never_throws (LocalSession Sample.parent1)
       "c1" Sample.db_registered).1 = [Sample.admin_self_row]
  /\ remainingSeats <$> getEvent
       (delete_child Sample2.child_never_throws (LocalSession Sample.parent1)
          "c1" Sample.db_registered).1 "e1" = Some 4.
Proof.
  destruct (delete_child_cascade Sample2.child_never_throws
              (LocalSession Sample.parent1) "c1" Sample.db_registered
              (delete_child Sample2.child_never_throws
                 (LocalSession Sample.parent1) "c1" Sample.db_registered).1)
    as (_ & _ & _ & Hevents & _).
  - vm_compute. reflexivity.
  - split; [vm_compute; reflexivity|].
    unfold getEvent. rewrite Hevents. vm_compute. reflexivity.
Defined.

(** ** Supervisors *)

Lemma supervisors_of_app (rows rows' : list EventSupervisor) (ev : string) :
  supervisors_of (rows ++ rows') ev
  = supervisors_of rows ev ++ supervisors_of rows' ev.
Proof. unfold supervisors_of. now rewrite filter_app, fmap_app. Qed.

Lemma supervisors_of_removed (rows : list EventSupervisor) (evId ev : string) :
  supervisors_of (filter (fun s => sup_eventId s ≠ evId) rows) ev
  = if decide (ev = evId) then [] else supervisors_of rows ev.
Proof.
  unfold supervisors_of. induction rows as [|s rows IH].
  - now destruct (decide (ev = evId)).
  - rewrite !filter_cons.
    destruct (decide (sup_eventId s ≠ evId)) as [Hne|Heq].
    + rewrite filter_cons.
      destruct (decide (sup_eventId s = ev)) as [Hs|Hs].
      * cbn. rewrite IH. destruct (decide (ev = evId)); [congruence|].
        reflexivity.
      * exact IH.
    + apply dec_stable in Heq. rewrite IH.
      destruct (decide (ev = evId)) as [->|Hev]; [reflexivity|].
      destruct (decide (sup_eventId s = ev)); [congruence|reflexivity].
Qed.

Lemma supervisors_of_data (evId ev : string) (staffIds : list string) :
  supervisors_of (supervisorData evId staffIds) ev
  = if decide (ev = evId) then staffIds else [].
Proof.
  unfold supervisors_of, supervisorData.
  induction staffIds as [|s l IH]; [now destruct (decide (ev = evId))|].
  cbn [fmap list_fmap]. rewrite filter_cons. cbn [sup_eventId].
  destruct (decide (evId = ev)) as [->|Hne].
  - cbn. rewrite IH. now rewrite !decide_True.
  - rewrite IH. now rewrite !decide_False by congruence.
Qed.

(** X16: updating the supervisors of an event replaces them: when the
    call returns, the event's supervisors are the staff ids given, in
    their order; every other event's supervisors are as before, whether
    it returns or throws.  The call throws exactly when the deletion
    throws, or the insertion throws and there is a staff id to insert:
    in the first case the table is as it was, in the second the event is
    left without any supervisor. *)
Theorem supervisors_replaced (delete_throws insert_throws : bool)
    (rows : list EventSupervisor) (evId : string) (staffIds : list string) :
  let rows' :=
    (updateEventSupervisors delete_throws insert_throws rows evId
       staffIds).1 in
  let done :=
    (updateEventSupervisors delete_throws insert_throws rows evId
       staffIds).2 in
  (forall ev, ev ≠ evId -> supervisors_of rows' ev = supervisors_of rows ev)
  /\ (done = true -> supervisors_of rows' evId = staffIds)
  /\ (done = false <->
      delete_throws = true \/ (insert_throws = true /\ staffIds ≠ []))
  /\ (delete_throws = true -> rows' = rows)
  /\ (delete_throws = false -> done = false ->
      supervisors_of rows' evId = []).
Proof.
  cbn zeta. unfold updateEventSupervisors.
  destruct delete_throws.
  { cbn [fst snd]. split; [reflexivity|]. split; [discriminate|].
    split; [split; auto|]. split; [reflexivity|discriminate]. }
  destruct staffIds as [|s l].
  - cbn [fst snd]. split; [|split; [|split; [|split]]].
    + intros ev Hev. rewrite supervisors_of_removed. now rewrite decide_False.
    + intros _. rewrite supervisors_of_removed. now rewrite decide_True.
    + split; [discriminate|]. intros [[=] | [_ Hne]]. now destruct Hne.
    + discriminate.
    + discriminate.
  - destruct insert_throws; cbn [fst snd];
      (split; [|split; [|split; [|split]]]).
    + intros ev Hev. rewrite supervisors_of_removed. now rewrite decide_False.
    + discriminate.
    + split; [intros _; right; now split|reflexivity].
    + discriminate.
    + intros _ _. rewrite supervisors_of_removed. now rewrite decide_True.
    + intros ev Hev.
      rewrite supervisors_of_app, supervisors_of_removed, supervisors_of_data.
      rewrite !decide_False by assumption. apply app_nil_r.
    + intros _.
      rewrite supervisors_of_app, supervisors_of_removed, supervisors_of_data.
      now rewrite !decide_True.
    + split; [discriminate|]. intros [[=] | [[=] _]].
    + discriminate.
    + discriminate.
Qed.

Lemma supervisors_replaced_witness :
  supervisors_of
    (updateEventSupervisors false false Sample2.supervisor_rows "e1"
       ["p2"; "s1"]%string).1 "e1" = ["p2"; "s1"]%string
  /\ supervisors_of
       (updateEventSupervisors false false Sample2.supervisor_rows "e1"
          ["p2"; "s1"]%string).1 "e-full" = ["a1"]%string
  /\ (updateEventSupervisors true false Sample2.supervisor_rows "e1"
        ["p2"; "s1"]%string).1 = Sample2.supervisor_rows
  /\ supervisors_of
       (updateEventSupervisors false true Sample2.supervisor_rows "e1"
          ["p2"; "s1"]%string).1 "e1" = [].
Proof.
  destruct (supervisors_replaced false false Sample2.supervisor_rows "e1"
              ["p2"; "s1"]%string) as (Hother & Hdone & _).
  destruct (supervisors_replaced true false Sample2.supervisor_rows "e1"
              ["p2"; "s1"]%string) as (_ & _ & _ & Hkept & _).
  destruct (supervisors_replaced false true Sample2.supervisor_rows "e1"
              ["p2"; "s1"]%string) as (_ & _ & _ & _ & Hlost).
  split; [|split; [|split]].
  - apply Hdone. reflexivity.
  - rewrite Hother by discriminate. reflexivity.
  - apply Hkept. reflexivity.
  - apply Hlost; reflexivity.
Defined.

(** ** Seeding *)

(** [createEvent] never removes or changes a stored event. *)
Lemma createEvent_keeps (throws : CreateCall -> bool) (newId : string)
    (ev : InsertEvent) (staffIds : option (list string)) (db : Db)
    (id : string) (e : Event) :
  events (store db) !! id = Some e ->
  events (store (createEvent throws newId ev staffIds db).1) !! id = Some e.
Proof.
  intros He. unfold createEvent.
  destruct (throws CallInsertEvent); [exact He|]. cbn [orb].
  destruct (decide (is_Some (events (store db) !! newId))) as [Htaken|Hfree].
  - rewrite bool_decide_eq_true_2 by assumption. exact He.
  - rewrite bool_decide_eq_false_2 by assumption.
    assert (Hne : newId ≠ id).
    { intros ->. apply Hfree. eauto. }
    repeat case_match; simplify_eq; cbn; now rewrite lookup_insert_ne.
Qed.

Lemma create_all_keeps (throws : CreateCall -> bool)
    (rows : list (string * InsertEvent)) (db : Db) (id : string) (e : Event) :
  events (store db) !! id = Some e ->
  events (store (create_all throws rows db)) !! id = Some e.
Proof.
  revert db. induction rows as [|[newId ev] rows IH]; intros db He;
    [exact He|].
  cbn [create_all].
  pose proof (createEvent_keeps throws newId ev None db id e He) as Hkeep.
  destruct (createEvent throws newId ev None db) as [db1 [created|]];
    [now apply IH|exact Hkeep].
Qed.

Lemma create_all_first (throws : CreateCall -> bool) (newId : string)
    (ev : InsertEvent) (rest : list (string * InsertEvent)) (db : Db) :
  events (store db) !! newId = None ->
  throws CallInsertEvent = false ->
  events (store (create_all throws ((newId, ev) :: rest) db)) !! newId
  = Some (inserted_event ev).
Proof.
  intros Hfree Hthrows. cbn [create_all].
  pose proof (createEvent_inserts throws newId ev None db Hfree Hthrows)
    as Hfirst.
  destruct (createEvent throws newId ev None db) as [db1 created].
  destruct Hfirst as (Hev & _ & _ & _ & -> & _).
  apply create_all_keeps. rewrite Hev. apply lookup_insert_eq.
Qed.

(** With an event that is not deleted in the store, [seedEvents]
    returns at once. *)
Lemma seedEvents_existing (throws : CreateCall -> bool) (now : Z)
    (newIds : string * string * string) (db : Db) (id : string) (e : Event) :
  events (store db) !! id = Some e -> deleted e = false ->
  seedEvents throws now newIds db = db.
Proof.
  intros He Hdel. unfold seedEvents.
  destruct (getAllEvents (store db) now false) as [|row rows] eqn:Hall;
    [|reflexivity].
  assert (Hin : (id, set_status (status_string (calculateEventStatus now e)) e)
                ∈ getAllEvents (store db) now false).
  { apply getAllEvents_elem. exists e. auto. }
  rewrite Hall in Hin. inversion Hin.
Qed.

(** X17: seeding happens once: with an event that is not deleted in
    the store [seedEvents] changes nothing, and after a seeding whose
    first key is free and whose event insertions do not throw, seeding
    again, at any later time and with any keys, changes nothing. *)
Theorem seedEvents_once (throws throws' : CreateCall -> bool) (now now' : Z)
    (id1 id2 id3 : string) (newIds' : string * string * string) (db : Db) :
  (forall id e, events (store db) !! id = Some e -> deleted e = false ->
     seedEvents throws now (id1, id2, id3) db = db)
  /\ (events (store db) !! id1 = None -> throws CallInsertEvent = false ->
      let seeded := seedEvents throws now (id1, id2, id3) db in
      seedEvents throws' now' newIds' seeded = seeded).
Proof.
  split; [intros id e; apply seedEvents_existing|].
  intros Hfree Hthrows seeded.
  assert (Hhas : exists id e,
            events (store seeded) !! id = Some e /\ deleted e = false).
  { subst seeded. unfold seedEvents.
    destruct (getAllEvents (store db) now false) as [|[id e'] rows] eqn:Hall.
    - exists id1. eexists. split.
      + unfold seed_data. cbn [zip zip_with].
        now apply create_all_first.
      + reflexivity.
    - assert (Hin : (id, e') ∈ getAllEvents (store db) now false)
        by (rewrite Hall; left).
      apply getAllEvents_elem in Hin as (e & He & Hdel & _).
      exists id, e. auto. }
  destruct Hhas as (id & e & He & Hdel).
  now apply (seedEvents_existing throws' now' newIds' seeded id e).
Qed.

Lemma seedEvents_once_witness :
  let seeded := seedEvents Sample2.never_throws 0
                  ("s-1", "s-2", "s-3")%string Sample2.empty_db in
  size (events (store seeded)) = 3%nat
  /\ seedEvents Sample2.never_throws 5000 ("s-4", "s-5", "s-6")%string seeded
     = seeded.
Proof.
  intros seeded. split; [vm_compute; reflexivity|].
  apply (seedEvents_once Sample2.never_throws Sample2.never_throws 0 5000
           "s-1" "s-2" "s-3" ("s-4", "s-5", "s-6")%string Sample2.empty_db);
    reflexivity.
Defined.

(** ** Status over time *)

(** X18: as time passes, with the seats unchanged, the status of an
    event only moves forward: a [past] event stays [past], a closed or
    full one stays so or becomes [past], and an event that is [open]
    later was [open] before. *)
Theorem status_moves_forward (now now' : Z) (e : Event) :
  now <= now' ->
  (calculateEventStatus now e = past -> calculateEventStatus now' e = past)
  /\ (calculateEventStatus now e = registration_closed ->
      calculateEventStatus now' e = registration_closed
      \/ calculateEventStatus now' e = past)
  /\ (calculateEventStatus now e = full ->
      calculateEventStatus now' e = full
      \/ calculateEventStatus now' e = past)
  /\ (calculateEventStatus now' e = open ->
      calculateEventStatus now e = open).
Proof.
  intros Hle. unfold calculateEventStatus.
  set (cutoff := startTime e - cutoffHours e * 60 * 60 * 1000).
  destruct (Z.ltb_spec (startTime e) now), (Z.ltb_spec (startTime e) now'),
    (Z.leb_spec (remainingSeats e) 0), (Z.ltb_spec cutoff now),
    (Z.ltb_spec cutoff now');
    try lia; repeat split; intros Hs; try discriminate Hs; auto.
Qed.

Lemma status_moves_forward_witness :
  calculateEventStatus (Sample.hours 40) Sample.workshop = registration_closed
  /\ calculateEventStatus (Sample.hours 50) Sample.workshop = past.
Proof.
  split; [reflexivity|].
  destruct (status_moves_forward (Sample.hours 49) (Sample.hours 50)
              Sample.workshop) as (Hpast & _).
  - vm_compute. discriminate.
  - apply Hpast. reflexivity.
Defined.

(** ** Editing an event *)


